(** * ecco.output: a shallow embedding of the analysis core

    The development follows [src/ecco/output.py]: the reshaping of the
    activations and the set-up of their factorization ([class NMF]), and
    the positions, rankings and layer predictions of [class OutputSeq].

    Tensors hold rationals (the order and the arithmetic of the scores is
    all the analyses below look at), Python integers are [Z], Python
    exceptions are values of [exn], and a call that may raise returns a
    [result].  What the module calls and does not define is a parameter:
    the language-model head and the tokenizer are fields of the record,
    the exponential and the fit of the factorization are section
    variables.  The calls to the notebook display are left out; each
    method returns the payload it builds for it. *)

From Stdlib Require Import QArith Qminmax Qround.
From stdpp Require Import gmap strings list sorting.

Local Open Scope Z_scope.

(** ** Exceptions and results *)

(** The messages of the [ValueError]s the module (and the array library
    under it) raises, with the values each message is formatted with. *)
Inductive value_error :=
  | PositionNotGenerated (lo hi : Z)
      (* "'position' should indicate a position of a generated token.
          Accepted values for this sequence are between {} and {}." *)
  | PositionZero
      (* "'position' is set to 0. There is never a hidden state ..." *)
  | NoActivationData
      (* "No activation data found. Make sure 'activations=True' was
          passed to ecco.from_pretrained()." *)
  | NotFourDimensions (supplied : list nat)
      (* "The 'activations' parameter should have four dimensions ..." *)
  | SameLayers (from_layer to_layer : Z)
      (* "from_layer ({}) and to_layer ({}) cannot be the same value. ..." *)
  | FromLargerThanTo (from_layer to_layer : Z)
      (* "from_layer ({}) cannot be larger than to_layer ({})." *)
  | LayersNotRecorded (from_layer to_layer : option Z) (available : list Z)
      (* "Not all layers between from_layer ({}) and to_layer ({}) have
          recorded activations. Layers with recorded activations are: {}" *)
  | ConcatenateNothing
      (* numpy: "need at least one array to concatenate" *)
  | ConcatenateMismatch
      (* numpy: "all the input array dimensions ... must match exactly" *)
  | CannotReshape (supplied : list nat)
      (* numpy: "cannot reshape array of size 0 into shape (0,newaxis)" *)
  | NegativeDimensions
      (* numpy: "negative dimensions are not allowed" *)
  | NotOneElement
      (* torch: "only one element tensors can be converted to Python
          scalars" *).

Inductive exn :=
  | ValueError (msg : value_error)
  | IndexError
  | KeyError
  | FitError (code : nat) (* whatever the factorization library raises *).

Inductive result (A : Type) :=
  | Ok (a : A)
  | Raise (e : exn).
Arguments Ok {A} a.
Arguments Raise {A} e.

#[global] Instance result_ret : MRet result := fun _ a => Ok a.
#[global] Instance result_bind : MBind result := fun _ _ f r =>
  match r with Ok a => f a | Raise e => Raise e end.
#[global] Instance result_fmap : FMap result := fun _ _ f r =>
  match r with Ok a => Ok (f a) | Raise e => Raise e end.

(** [[f x for x in l]] where [f] may raise: the first exception wins. *)
Fixpoint for_each {A B} (f : A -> result B) (l : list A) : result (list B) :=
  match l with
  | [] => Ok []
  | x :: l => y ← f x; ys ← for_each f l; Ok (y :: ys)
  end.

(** ** Python sequences *)

(** [range(a, b)]. *)
Definition range (a b : Z) : list Z := seqZ a (b - a).

(** [enumerate(l)]. *)
Definition enumerate {A} (l : list A) : list (nat * A) :=
  zip (seq 0 (length l)) l.

(** [l[i]] for an index that may be negative. *)
Definition getitem {A} (l : list A) (i : Z) : result A :=
  let n := Z.of_nat (length l) in
  let i' := if i <? 0 then i + n else i in
  if (i' <? 0) || (n <=? i') then Raise IndexError
  else match l !! Z.to_nat i' with Some x => Ok x | None => Raise IndexError end.

(** The bound of a slice, clipped the way Python clips it. *)
Definition slice_index {A} (l : list A) (i : Z) : nat :=
  let n := Z.of_nat (length l) in
  Z.to_nat (if i <? 0 then Z.max 0 (i + n) else Z.min i n).

(** [l[:i]] and [l[i:]]. *)
Definition slice_to {A} (l : list A) (i : Z) : list A := take (slice_index l i) l.
Definition slice_from {A} (l : list A) (i : Z) : list A := drop (slice_index l i) l.

(** [sorted(l)] on integers. *)
Definition sorted (l : list Z) : list Z := merge_sort Z.le l.

(** ** Arrays *)

(** A numpy array: its shape and its cells in row-major order. *)
Record ndarray := { shape : list nat; data : list Q }.

Definition dim (a : ndarray) (axis : nat) : nat := nth axis (shape a) 0%nat.

(** The [len] cells of [cells] that start at [start]. *)
Definition chunk (start len : nat) (cells : list Q) : list Q :=
  take len (drop start cells).

(** [a[:, row_ix]] on a four-dimensional array: the result has the
    axes (batch, neuron, position). *)
Definition select_layer (a : ndarray) (row_ix : nat) : result ndarray :=
  let B := dim a 0 in let L := dim a 1 in let N := dim a 2 in let P := dim a 3 in
  if (L <=? row_ix)%nat then Raise IndexError
  else Ok {| shape := [B; N; P];
             data := flat_map (fun b => chunk ((b * L + row_ix) * (N * P)) (N * P) (data a))
                              (seq 0 B) |}.

(** [np.concatenate(rows, axis=1)] on three-dimensional arrays. *)
Definition concatenate_axis1 (rows : list ndarray) : result ndarray :=
  match rows with
  | [] => Raise (ValueError ConcatenateNothing)
  | r0 :: _ =>
      let B := dim r0 0 in let P := dim r0 2 in
      if forallb (fun r => (length (shape r) =? 3)%nat && (dim r 0 =? B)%nat && (dim r 2 =? P)%nat) rows
      then Ok {| shape := [B; sum_list (map (fun r => dim r 1) rows); P];
                 data := flat_map (fun b =>
                           flat_map (fun r => chunk (b * (dim r 1 * P)) (dim r 1 * P) (data r)) rows)
                           (seq 0 B) |}
      else Raise (ValueError ConcatenateMismatch)
  end.

(** [a.swapaxes(0, 1)] on a three-dimensional array. *)
Definition swapaxes01 (a : ndarray) : ndarray :=
  let B := dim a 0 in let M := dim a 1 in let P := dim a 2 in
  {| shape := [M; B; P];
     data := flat_map (fun m => flat_map (fun b => chunk ((b * M + m) * P) P (data a)) (seq 0 B))
                      (seq 0 M) |}.

(** [a.reshape(a.shape[0], -1)]: the trailing axes are flattened; numpy
    cannot infer the [-1] when the leading axis is empty. *)
Definition reshape_rows (a : ndarray) : result ndarray :=
  let M := dim a 0 in
  if (M =? 0)%nat then Raise (ValueError (CannotReshape (shape a)))
  else Ok {| shape := [M; foldr Nat.mul 1%nat (drop 1 (shape a))]; data := data a |}.

(** [a.T] on a matrix. *)
Definition transpose (a : ndarray) : ndarray :=
  let R := dim a 0 in let C := dim a 1 in
  {| shape := [C; R];
     data := flat_map (fun c => flat_map (fun r => chunk (r * C + c) 1 (data a)) (seq 0 R))
                      (seq 0 C) |}.

(** [np.maximum(a, 0)]. *)
Definition maximum0 (a : ndarray) : ndarray :=
  {| shape := shape a; data := map (Qmax 0) (data a) |}.

(** ** NMF.reshape_activations (lines 623-683) *)

(** [{layer_num: i for i, layer_num in enumerate(nums)}]: a later
    occurrence of a layer number replaces an earlier one. *)
Definition layer_nums_to_row_ixs (nums : list Z) : gmap Z nat :=
  foldl (fun m '(i, layer_num) => <[layer_num := i]> m) ∅ (enumerate nums).

(** [sorted(layer_nums_to_row_ixs.keys())]. *)
Definition available_layers (nums : list Z) : list Z :=
  sorted (map fst (map_to_list (layer_nums_to_row_ixs nums))).

(** Lines 671-683: gather the rows, merge layers and neurons, move the
    neuron axis first and flatten batch and position. *)
Definition merge_rows (activations : ndarray) (row_ixs : list nat) : result ndarray :=
  activation_rows ← for_each (select_layer activations) row_ixs;
  merged_act ← concatenate_axis1 activation_rows;
  let merged_act := swapaxes01 merged_act in
  reshape_rows merged_act.

Definition reshape_activations (activations : ndarray)
    (from_layer to_layer : option Z)
    (collect_activations_layer_nums : option (list Z)) : result ndarray :=
  if negb (length (shape activations) =? 4)%nat then
    Raise (ValueError (NotFourDimensions (shape activations)))
  else
    let collect_activations_layer_nums :=
      match collect_activations_layer_nums with
      | Some nums => nums
      | None => range 0 (Z.of_nat (dim activations 1))
      end in
    let row_ixs_of := layer_nums_to_row_ixs collect_activations_layer_nums in
    '(from_layer, to_layer, layer_nums) ←
      (if bool_decide (is_Some from_layer) || bool_decide (is_Some to_layer) then
         let from_layer := default 0 from_layer in
         let to_layer := default (Z.of_nat (dim activations 0)) to_layer in
         if from_layer =? to_layer then
           Raise (ValueError (SameLayers from_layer to_layer))
         else if from_layer >? to_layer then
           Raise (ValueError (FromLargerThanTo from_layer to_layer))
         else Ok (Some from_layer, Some to_layer, range from_layer to_layer)
       else Ok (from_layer, to_layer, available_layers collect_activations_layer_nums));
    if existsb (fun num => negb (bool_decide (is_Some (row_ixs_of !! num)))) layer_nums then
      Raise (ValueError (LayersNotRecorded from_layer to_layer
                           (available_layers collect_activations_layer_nums)))
    else
      row_ixs ← for_each (fun layer_num =>
                   match row_ixs_of !! layer_num with
                   | Some i => Ok i
                   | None => Raise KeyError
                   end) layer_nums;
      merge_rows activations row_ixs.

(** The collected layer ids [reshape_activations] works with (lines
    645-646), and its last steps (lines 671-683) for the layer numbers
    it settled on. *)
Definition recorded (a : ndarray) (c : option (list Z)) : list Z :=
  default (range 0 (Z.of_nat (dim a 1))) c.

Definition gather (a : ndarray) (nums layer_nums : list Z) : result ndarray :=
  row_ixs ← for_each (fun layer_num =>
               match layer_nums_to_row_ixs nums !! layer_num with
               | Some i => Ok i
               | None => Raise KeyError
               end) layer_nums;
  merge_rows a row_ixs.

(** The rows of a matrix, as [for comp in matrix] yields them. *)
Definition rows_of (a : ndarray) : list (list Q) :=
  map (fun r => chunk (r * dim a 1) (dim a 1) (data a)) (seq 0 (dim a 0)).

(** [a[b, l, n, p]] and [m[r, c]], read in the row-major cells. *)
Definition cell4 (a : ndarray) (b l n p : nat) : option Q :=
  data a !! (((b * dim a 1 + l) * dim a 2 + n) * dim a 3 + p)%nat.

Definition cell2 (m : ndarray) (r c : nat) : option Q :=
  data m !! (r * dim m 1 + c)%nat.

(** The layer numbers [reshape_activations] settles on (lines 651-664),
    before it checks them. *)
Definition resolved_layers (a : ndarray) (from_layer to_layer : option Z)
    (c : option (list Z)) : list Z :=
  if bool_decide (is_Some from_layer) || bool_decide (is_Some to_layer) then
    range (default 0 from_layer) (default (Z.of_nat (dim a 0)) to_layer)
  else available_layers (recorded a c).

(** ** class NMF (lines 554-744) *)

(** What [__init__] receives as [activations]: the array (the declared
    type of the argument), or the empty list [[]] that stands for
    activations that were not collected, the value line 584 tests for. *)
Inductive activations_arg :=
  | EmptyList
  | Array (a : ndarray).

(** The settings [decomposition.NMF] is constructed with. *)
Record sk_NMF := {
  n_components : Z;
  init : string;
  random_state : Z;
  max_iter : Z
}.

(** An instance that was given its tokens, as [run_nmf] builds it: the
    fields hold the token ids and the token texts of the batch.  (An
    instance built with the default [tokens=None] is not a value of this
    record; on it [explore] cannot index the tokens at all.) *)
Record NMF := {
  nmf_token_ids : list (list Z);
  nmf_n_input_tokens : Z;
  nmf_tokens : list (list string);
  nmf_activations : ndarray;
  model : sk_NMF;
  components : ndarray
}.

Inductive token_type := input | output.

(** The token records of the payloads handed to the renderer. *)
Record token_view := {
  token : string;
  token_id : Z;
  type : token_type;
  value : option Q;
  position_ix : option nat
}.

Record factors_view := {
  fv_tokens : list token_view;
  fv_factors : list (list (list Q))
}.

Definition type_of_index (idx : nat) (n_input_tokens : Z) : token_type :=
  if Z.of_nat idx <? n_input_tokens then input else output.

Section Factorization.

(** [model.fit_transform], the fit of the factorization library: the
    module only hands it the settings and the matrix.  [inl code] stands
    for an exception of the library. *)
Variable fit_transform : sk_NMF -> ndarray -> nat + ndarray.

(** [NMF.__init__] (lines 557-619); [from_layer] and [to_layer] are the
    two keyword arguments it looks up. *)
Definition NMF_init (activations : activations_arg) (n_input_tokens : Z)
    (token_ids : list (list Z)) (n_components : Z) (tokens : list (list string))
    (collect_activations_layer_nums : option (list Z))
    (from_layer to_layer : option Z) : result NMF :=
  match activations with
  | EmptyList => Raise (ValueError NoActivationData)
  | Array activations =>
      merged_act ← reshape_activations activations from_layer to_layer
                     collect_activations_layer_nums;
      let activations := merged_act in
      let n_output_tokens := Z.of_nat (dim activations (length (shape activations) - 1)) in
      let n_layers := Z.of_nat (dim activations 0) in
      let n_components := Z.min n_components n_output_tokens in
      (* [np.zeros((n_layers, n_components, n_output_tokens))] *)
      if n_components <? 0 then Raise (ValueError NegativeDimensions)
      else
        let self_activations := transpose (maximum0 activations) in
        let self_model := {| n_components := n_components; init := "random";
                             random_state := 0; max_iter := 500 |} in
        fitted ← match fit_transform self_model self_activations with
                 | inr fitted => Ok fitted
                 | inl code => Raise (FitError code)
                 end;
        Ok {| nmf_token_ids := token_ids; nmf_n_input_tokens := n_input_tokens;
              nmf_tokens := tokens; nmf_activations := self_activations;
              model := self_model; components := transpose fitted |}
  end.

End Factorization.

(** The factor shown for one component (line 714):
    [np.concatenate([comp[:n_input_tokens], comp[n_input_tokens - 1:]])]. *)
Definition duplicate_boundary (n_input_tokens : Z) (comp : list Q) : list Q :=
  slice_to comp n_input_tokens ++ slice_from comp (n_input_tokens - 1).

(** [NMF.explore] (lines 685-744): the payload it builds. *)
Definition explore (self : NMF) (input_sequence : Z) : result factors_view :=
  sequence_tokens ← getitem (nmf_tokens self) input_sequence;
  tokens ← for_each (fun '(idx, token) =>
              ids ← getitem (nmf_token_ids self) input_sequence;
              id ← getitem ids (Z.of_nat idx);
              Ok {| token := token; token_id := id;
                    type := type_of_index idx (nmf_n_input_tokens self);
                    value := None; position_ix := Some idx |})
            (enumerate sequence_tokens);
  ids ← getitem (nmf_token_ids self) input_sequence;
  let factors :=
    if negb (Z.of_nat (length ids) =? nmf_n_input_tokens self) then
      map (duplicate_boundary (nmf_n_input_tokens self)) (rows_of (components self))
    else rows_of (components self) in
  Ok {| fv_tokens := tokens; fv_factors := [factors] |}.

(** ** class OutputSeq (lines 15-552) *)

Record OutputSeq := {
  token_ids : list (list Z);          (* (batch, position) *)
  n_input_tokens : Z;
  tokens : list (list string);        (* (batch, position) *)
  hidden_states : list (list (list Q)); (* (layer, position, hidden) *)
  attribution : gmap string (list (list Q));
  activations : activations_arg;
  collect_activations_layer_nums : option (list Z);
  lm_head : list Q -> list Q;
  decode : Z -> string                (* tokenizer.decode *)
}.

(** The records of [position]: it walks [self.tokens] itself, so each
    entry of that sequence is its "token". *)
Record position_view := {
  pv_token : list string;
  pv_token_id : Z;
  pv_type : token_type;
  pv_value : Q
}.

(** [int(t)] on a one-dimensional tensor. *)
Definition int_of_tensor (t : list Z) : result Z :=
  match t with
  | [x] => Ok x
  | _ => Raise (ValueError NotOneElement)
  end.

(** [OutputSeq.position] (lines 142-180). *)
Definition position (self : OutputSeq) (position : Z) (attr_method : string)
    : result (list position_view) :=
  let total := Z.of_nat (length (tokens self)) in
  if (position <? n_input_tokens self) || (position >? total - 1) then
    Raise (ValueError (PositionNotGenerated (n_input_tokens self) (total - 1)))
  else
    let importance_id := position - n_input_tokens self in
    match attribution self !! attr_method with
    | None => Raise KeyError
    | Some attribution =>
        for_each (fun '(idx, token) =>
          scores ← getitem attribution importance_id;
          imp ← (if (idx <? length scores)%nat then getitem scores (Z.of_nat idx)
                 else Ok (-1)%Q);
          ids ← getitem (token_ids self) (Z.of_nat idx);
          id ← int_of_tensor ids;
          Ok {| pv_token := token; pv_token_id := id;
                pv_type := type_of_index idx (n_input_tokens self);
                pv_value := imp |})
          (enumerate (tokens self))
    end.

(** [OutputSeq.explorable] (lines 103-132): the token records it hands to
    the renderer. *)
Definition explorable (self : OutputSeq) : result (list token_view) :=
  sequence_tokens ← getitem (tokens self) 0;
  for_each (fun '(idx, token) =>
    ids ← getitem (token_ids self) 0;
    id ← getitem ids (Z.of_nat idx);
    Ok {| token := token; token_id := id;
          type := type_of_index idx (n_input_tokens self);
          value := None; position_ix := None |})
    (enumerate sequence_tokens).

(** The two styles [saliency] has a script for; with any other the
    method stops at the display, [js] being unbound. *)
Inductive saliency_style := minimal | detailed.

Record saliency_view := {
  sv_tokens : list token_view;
  sv_attributions : list (list Q)
}.

(** [OutputSeq.saliency] (lines 182-281): the payload it builds. *)
Definition saliency (self : OutputSeq) (attr_method : string) (style : saliency_style)
    : result saliency_view :=
  let position := n_input_tokens self in
  let importance_id := position - n_input_tokens self in
  match attribution self !! attr_method with
  | None => Raise KeyError
  | Some attribution =>
      sequence_tokens ← getitem (tokens self) 0;
      tokens ← for_each (fun '(idx, token) =>
                  scores ← getitem attribution importance_id;
                  imp ← (if (idx <? length scores)%nat then getitem scores (Z.of_nat idx)
                         else Ok 0%Q);
                  ids ← getitem (token_ids self) 0;
                  id ← getitem ids (Z.of_nat idx);
                  Ok {| token := token; token_id := id;
                        type := type_of_index idx (n_input_tokens self);
                        value := Some imp; position_ix := Some idx |})
                (enumerate sequence_tokens);
      Ok {| sv_tokens := tokens; sv_attributions := attribution |}
  end.

(** [OutputSeq.run_nmf] (lines 539-552). *)
Definition run_nmf (fit_transform : sk_NMF -> ndarray -> nat + ndarray)
    (self : OutputSeq) (n_components : Z) (from_layer to_layer : option Z) : result NMF :=
  NMF_init fit_transform (activations self) (n_input_tokens self) (token_ids self)
    n_components (tokens self) (collect_activations_layer_nums self) from_layer to_layer.

(** ** Sorting scores *)

(** [scores[i]]. *)
Definition score (scores : list Q) (i : nat) : Q := nth i scores 0%Q.

Fixpoint insert_by (scores : list Q) (i : nat) (l : list nat) : list nat :=
  match l with
  | [] => [i]
  | j :: l' =>
      if Qle_bool (score scores i) (score scores j) then i :: j :: l'
      else j :: insert_by scores i l'
  end.

(** [torch.argsort(scores)]: the indices of the scores in ascending
    order of score.  The library leaves the order of equal scores open
    (the sort is not stable by default); this function is one such
    order, the one that keeps equal scores in the order of their
    indices.  What is said below of tied scores is said of every order
    the library may return ([ascending_order]). *)
Definition argsort (scores : list Q) : list nat :=
  foldr (insert_by scores) [] (seq 0 (length scores)).

(** Index [i] stands before index [j] in the order of [argsort]: a
    smaller score, or the same score and a smaller index. *)
Definition before (scores : list Q) (i j : nat) : Prop :=
  (score scores i < score scores j)%Q \/
  (score scores i == score scores j)%Q /\ (i < j)%nat.

(** Following the spec's words ("t is the arg-max of project(h, w)"): a
    token whose score no other score exceeds, and the one [argmax]
    returns, which is the first of them. *)
Definition is_argmax (scores : list Q) (t : nat) : Prop :=
  (t < length scores)%nat /\
  forall u, (u < length scores)%nat -> (score scores u <= score scores t)%Q.

Definition argmax (scores : list Q) : nat :=
  foldl (fun best i => if Qle_bool (score scores i) (score scores best) then best else i)
        0%nat (seq 0 (length scores)).

Definition descending (l : list Q) : Prop :=
  StronglySorted (fun a b => (b <= a)%Q) l.

Definition strictly_descending (l : list Q) : Prop :=
  StronglySorted (fun a b => (b < a)%Q) l.

Definition Qsum (l : list Q) : Q := foldr Qplus 0%Q l.

(** Modelled from the spec: the projector [project(hidden_state,
    head_weights)], which [lm_head] stands for, is the matrix-vector
    product with the head weights (one row per token of the vocabulary). *)
Definition project (head_weights : list (list Q)) (hidden_state : list Q) : list Q :=
  map (fun row => Qsum (zip_with Qmult row hidden_state)) head_weights.

(** [torch.nonzero(sorted == token_id).flatten()]. *)
Definition nonzero_eq (sorted : list nat) (token_id : Z) : list Z :=
  map (fun p => Z.of_nat (fst p))
      (filter (fun p => Z.of_nat (snd p) = token_id) (enumerate sorted)).

(** The ranking step of [rankings] (lines 409-420) and of
    [rankings_watch] (lines 465-472): [int(sorted.shape[0] - r)]. *)
Definition rank_of (logits : list Q) (token_id : Z) : result Z :=
  let sorted := argsort logits in
  let r := nonzero_eq sorted token_id in
  let ranking := map (fun r => Z.of_nat (length sorted) - r) r in
  int_of_tensor ranking.

(** What [torch.argsort(scores)] returns, however it orders equal
    scores: every index once, no score before a smaller one. *)
Definition ascending_order (scores : list Q) (sorted : list nat) : Prop :=
  sorted ≡ₚ seq 0 (length scores) /\
  StronglySorted (fun i j => (score scores i <= score scores j)%Q) sorted.

(** The same ranking step (lines 413-420 and 469-472) on the tensor
    [sorted] that [torch.argsort] returned. *)
Definition rank_in (sorted : list nat) (token_id : Z) : result Z :=
  let r := nonzero_eq sorted token_id in
  let ranking := map (fun r => Z.of_nat (length sorted) - r) r in
  int_of_tensor ranking.

(** [OutputSeq.rankings] (lines 384-437): the matrix [rankings] handed to
    the plot, of shape [(n_layers - 1, position)], one row per layer
    after the embedding layer.  Row [i] starts as zeros and is written
    at the columns [j = 0, 1, ...] of the inner loop, so it is the ranks
    the loop computed followed by the zeros it did not reach.  After the
    loops the method reads [self.tokens[0]] for the labels of the plot. *)
Definition rankings (self : OutputSeq) : result (list (list Z)) :=
  let hidden_states := hidden_states self in
  let n_layers := Z.of_nat (length hidden_states) in
  embedding ← getitem hidden_states 0;
  let position := Z.of_nat (length embedding) - n_input_tokens self + 1 in
  (* [np.zeros((n_layers - 1, position))] *)
  if (n_layers - 1 <? 0) || (position <? 0) then
    Raise (ValueError NegativeDimensions)
  else
    rankings ← for_each (fun level =>
      written ← for_each (fun '(j, hidden_state) =>
        let logits := lm_head self hidden_state in
        ids ← getitem (token_ids self) 0;
        token_id ← getitem ids (n_input_tokens self + Z.of_nat j);
        (* [predicted_tokens[i, j] = token] *)
        if position <=? Z.of_nat j then Raise IndexError
        else
          ranking ← rank_of logits token_id;
          (* [token_id == self.token_ids[0][j + 1]] *)
          _ ← getitem ids (Z.of_nat j + 1);
          Ok ranking)
        (enumerate (slice_from level (n_input_tokens self - 1)));
      Ok (written ++ replicate (Z.to_nat position - length written) 0))
      (slice_from hidden_states 1);
    (* [input_tokens] and [output_tokens], slices of [self.tokens[0]] *)
    _ ← getitem (tokens self) 0;
    Ok rankings.

(** [OutputSeq.rankings_watch] (lines 439-486): the matrix [rankings]
    handed to the plot, of shape [(n_layers - 1, len(watch))]; the inner
    loop writes every column of a row.  After the loops the method reads
    [self.tokens[0]] for the labels of the plot. *)
Definition rankings_watch (self : OutputSeq) (watch : list Z) (position : Z)
    : result (list (list Z)) :=
  let position := if negb (position =? -1) then position - 1 else position in
  let hidden_states := hidden_states self in
  let n_layers := Z.of_nat (length hidden_states) in
  (* [np.zeros((n_layers - 1, n_tokens_to_watch))] *)
  if n_layers - 1 <? 0 then Raise (ValueError NegativeDimensions)
  else
    rankings ← for_each (fun level =>
      for_each (fun token_id =>
        hidden_state ← getitem level position;
        let logits := lm_head self hidden_state in
        rank_of logits token_id)
        watch)
      (slice_from hidden_states 1);
    (* [input_tokens = [t for t in self.tokens[0]]] *)
    _ ← getitem (tokens self) 0;
    Ok rankings.

(** ** Layer predictions *)

Record layer_prediction := {
  lp_token : string;
  prob : Q;
  ranking : nat;
  layer : Z
}.

Section Softmax.

(** The exponential of the tensor library. *)
Variable exp : Q -> Q.

(** [F.softmax(logits, dim=-1)]. *)
Definition softmax (logits : list Q) : list Q :=
  let e := map exp logits in
  map (fun x => (x / Qsum e)%Q) e.

(** The body of the loop of [layer_predictions] up to the zip of line
    351: the top [k] tokens of one hidden state with their
    probabilities, best first. *)
Definition layer_topk (self : OutputSeq) (hidden_state : list Q) (k : Z)
    : list (string * Q) :=
  let logits := lm_head self hidden_state in
  let softmax := softmax logits in
  let sorted_softmax := argsort softmax in
  let layer_top_tokens :=
    reverse (map (fun t => decode self (Z.of_nat t)) (slice_from sorted_softmax (- k))) in
  let layer_probs :=
    reverse (map (score softmax) (slice_from sorted_softmax (- k))) in
  zip layer_top_tokens layer_probs.

(** [OutputSeq.layer_predictions] (lines 301-382). *)
Definition layer_predictions (self : OutputSeq) (position : Z) (topk : Z)
    (layer : option Z) : result (list (list layer_prediction)) :=
  if position =? 0 then Raise (ValueError PositionZero)
  else
    hidden_states ←
      match layer with
      | Some layer => h ← getitem (hidden_states self) (layer + 1); Ok [h]
      | None => Ok (slice_from (hidden_states self) 1)
      end;
    for_each (fun '(layer_no, h) =>
      hidden_state ← getitem h (position - 1);
      Ok (map (fun '(idx, (token, prob)) =>
                 {| lp_token := token; prob := prob; ranking := idx + 1;
                    layer := default (Z.of_nat layer_no) layer |})
              (enumerate (layer_topk self hidden_state topk))))
      (enumerate hidden_states).

End Softmax.

(** The records of one row of [layer_predictions] (lines 350-358). *)
Definition layer_row (exp : Q -> Q) (self : OutputSeq) (hidden_state : list Q) (k : Z)
    (layer_num : Z) : list layer_prediction :=
  map (fun '(idx, (token, prob)) =>
         {| lp_token := token; prob := prob; ranking := idx + 1; layer := layer_num |})
      (enumerate (layer_topk exp self hidden_state k)).

(** ** Sample inputs

    The concrete values the examples below are run on. *)

Definition act0 : ndarray := {| shape := [1; 6; 10; 7]%nat; data := repeat 0%Q 420 |}.
Definition act1 : ndarray := {| shape := [2; 3; 2; 2]%nat; data := map inject_Z (seqZ 0 24) |}.

Definition fit_zeros (settings : sk_NMF) (x : ndarray) : nat + ndarray :=
  let k := Z.to_nat (n_components settings) in
  inr {| shape := [dim x 0; k]; data := repeat 0%Q (dim x 0 * k) |}.

Definition logits_demo : list Q := map inject_Z [3; 1; 2; 1; 3].
Definition head_demo : list (list Q) := map (map inject_Z) [[1; 2]; [3; 4]].
Definition pow2 (q : Q) : Q := (2 ^ Qfloor q)%Q.
Definition self_demo : OutputSeq :=
  {| token_ids := [[0; 1; 1; 0]]; n_input_tokens := 2;
     tokens := [["a"; "b"; "b"; "a"]];
     hidden_states := map (map (map inject_Z))
                        [[[1; 0]; [0; 1]; [1; 1]]; [[1; 0]; [2; -1]; [0; 0]]; [[0; 1]; [-1; 0]; [1; 1]]];
     attribution := {[ "grad_x_input" := [map inject_Z [1; 2]; map inject_Z [1; 2; 3]] ]};
     activations := Array act1;
     collect_activations_layer_nums := None;
     lm_head := project head_demo;
     decode := fun t => if t =? 0 then "a" else "b" |}.

Definition self_flat : OutputSeq :=
  {| token_ids := [[5]; [6]; [7]; [8]]; n_input_tokens := 2;
     tokens := [["a"]; ["b"]; ["c"]; ["d"]];
     hidden_states := [];
     attribution := {[ "grad_x_input" := [map inject_Z [1; 2]; map inject_Z [1; 2; 3]] ]};
     activations := EmptyList;
     collect_activations_layer_nums := None;
     lm_head := project head_demo;
     decode := fun t => if t =? 0 then "a" else "b" |}.



Definition self_text : OutputSeq :=
  {| token_ids := [[5; 6; 7; 8]]; n_input_tokens := 2;
     tokens := [["a"; "b"; "c"; "d"]];
     hidden_states := [];
     attribution := {[ "grad_x_input" := [map inject_Z [1; 2]; map inject_Z [1; 2; 3]] ]};
     activations := Array act1;
     collect_activations_layer_nums := None;
     lm_head := project head_demo;
     decode := fun t => if t =? 0 then "a" else "b" |}.

(** * Properties *)

(** ** Results *)

Lemma bind_Ok {A B} (r : result A) (f : A -> result B) (b : B) :
  r ≫= f = Ok b <-> exists a, r = Ok a /\ f a = Ok b.
Proof.
  destruct r as [a|e]; simpl; split.
  - intros H. exists a. done.
  - intros (a' & [= <-] & H). done.
  - discriminate.
  - intros (a' & H & _). discriminate.
Qed.

Lemma for_each_cons {A B} (f : A -> result B) x l :
  for_each f (x :: l) = y ← f x; ys ← for_each f l; Ok (y :: ys).
Proof. reflexivity. Qed.

Lemma for_each_Ok_exists {A B} (f : A -> result B) l :
  (forall x, x ∈ l -> exists y, f x = Ok y) ->
  exists ys, for_each f l = Ok ys /\ length ys = length l.
Proof.
  induction l as [|x l IH]; intros H; [by exists []|].
  destruct (H x) as [y Hy]; [by left|].
  destruct IH as (ys & Hys & Hlen); [intros x' Hx'; apply H; by right|].
  exists (y :: ys). rewrite for_each_cons, Hy. cbn [mbind result_bind].
  rewrite Hys. split; [done|]. simpl. by rewrite Hlen.
Qed.

Lemma for_each_Ok_length {A B} (f : A -> result B) l ys :
  for_each f l = Ok ys -> length ys = length l.
Proof.
  revert ys. induction l as [|x l IH]; intros ys; simpl.
  - by intros [= <-].
  - destruct (f x) as [y|]; simpl; [|done].
    destruct (for_each f l) as [ys'|]; simpl; [|done].
    intros [= <-]. simpl. f_equal. by apply IH.
Qed.

Lemma for_each_Ok_lookup {A B} (f : A -> result B) l ys i y :
  for_each f l = Ok ys -> ys !! i = Some y ->
  exists x, l !! i = Some x /\ f x = Ok y.
Proof.
  revert ys i. induction l as [|x l IH]; intros ys i; simpl.
  - intros [= <-]. done.
  - destruct (f x) as [y0|] eqn:Hx; simpl; [|done].
    destruct (for_each f l) as [ys'|]; simpl; [|done].
    intros [= <-]. destruct i as [|i]; simpl.
    + intros [= <-]. eauto.
    + intros Hy. by eapply IH.
Qed.

Lemma for_each_all_Ok {A B} (f : A -> result B) (g : A -> B) l :
  (forall x, x ∈ l -> f x = Ok (g x)) -> for_each f l = Ok (map g l).
Proof.
  induction l as [|x l IH]; intros H; simpl; [done|].
  rewrite (H x) by left. simpl. rewrite IH; [done|].
  intros y Hy. apply H. by right.
Qed.

(** The dictionary of layer numbers. *)
Lemma foldl_rows_lookup (l : list Z) (k : nat) (m : gmap Z nat) x i :
  foldl (fun m '(i, layer_num) => <[layer_num := i]> m) m (zip (seq k (length l)) l) !! x = Some i ->
  m !! x = Some i \/ (k <= i)%nat /\ l !! (i - k)%nat = Some x.
Proof.
  revert k m. induction l as [|y l IH]; intros k m; simpl; [by left|].
  intros H. apply IH in H as [H|[Hk H]].
  - destruct (decide (y = x)) as [->|Hne].
    + rewrite lookup_insert_eq in H. injection H as <-. right.
      split; [lia|]. by rewrite Nat.sub_diag.
    + rewrite lookup_insert_ne in H by done. by left.
  - right. split; [lia|]. replace (i - k)%nat with (S (i - S k)) by lia. done.
Qed.

Lemma foldl_rows_is_Some (l : list Z) (k : nat) (m : gmap Z nat) x :
  is_Some (foldl (fun m '(i, layer_num) => <[layer_num := i]> m) m (zip (seq k (length l)) l) !! x)
  <-> is_Some (m !! x) \/ x ∈ l.
Proof.
  revert k m. induction l as [|y l IH]; intros k m; simpl.
  - split; [by left|]. intros [H|H]; [done|]. by apply elem_of_nil in H.
  - rewrite IH. rewrite elem_of_cons.
    destruct (decide (y = x)) as [->|Hne].
    + rewrite lookup_insert_eq. split; [intros _; right; by left|]. intros _. left. eauto.
    + rewrite lookup_insert_ne by done. split; [tauto|]. intros [H|[H|H]]; [tauto|congruence|tauto].
Qed.

Lemma row_ixs_is_Some nums x :
  is_Some (layer_nums_to_row_ixs nums !! x) <-> x ∈ nums.
Proof.
  unfold layer_nums_to_row_ixs, enumerate. rewrite foldl_rows_is_Some.
  rewrite lookup_empty. split; [|by right].
  intros [[? H]|H]; [done|done].
Qed.

Lemma row_ixs_lookup nums x i :
  layer_nums_to_row_ixs nums !! x = Some i -> nums !! i = Some x.
Proof.
  unfold layer_nums_to_row_ixs, enumerate. intros H.
  apply foldl_rows_lookup in H as [H|[_ H]].
  - by rewrite lookup_empty in H.
  - by rewrite Nat.sub_0_r in H.
Qed.

Lemma elem_of_available_layers nums x :
  x ∈ available_layers nums <-> x ∈ nums.
Proof.
  unfold available_layers, sorted. rewrite merge_sort_Permutation.
  rewrite <- (row_ixs_is_Some nums x), list_elem_of_In, in_map_iff. split.
  - intros ([k i] & <- & H). apply list_elem_of_In, elem_of_map_to_list in H. simpl. eauto.
  - intros [i H]. exists (x, i). split; [done|]. by apply list_elem_of_In, elem_of_map_to_list.
Qed.

Lemma Sorted_available_layers nums : Sorted Z.le (available_layers nums).
Proof. unfold available_layers, sorted. apply Sorted_merge_sort. apply _. Qed.

Lemma NoDup_available_layers nums : NoDup (available_layers nums).
Proof.
  unfold available_layers, sorted. rewrite merge_sort_Permutation.
  change (map fst ?l) with (fst <$> l).
  apply (NoDup_fst_map_to_list (layer_nums_to_row_ixs nums)).
Qed.

Lemma Sorted_seqZ m n : Sorted Z.le (seqZ m n).
Proof.
  destruct (decide (n <= 0)) as [Hn|Hn]; [rewrite seqZ_nil by lia; constructor|].
  rewrite <- (Z2Nat.id n) by lia. generalize (Z.to_nat n) as k. clear. intros k. revert m.
  induction k as [|k IH]; intros m; [constructor|].
  rewrite seqZ_cons by lia. replace (Z.pred (Z.of_nat (S k))) with (Z.of_nat k) by lia.
  constructor; [apply IH|].
  destruct k; [constructor|]. rewrite seqZ_cons by lia. constructor. lia.
Qed.

Lemma available_layers_range L :
  available_layers (range 0 L) = range 0 L.
Proof.
  apply (Sorted_unique Z.le).
  - apply Sorted_available_layers.
  - apply Sorted_seqZ.
  - apply NoDup_Permutation.
    + apply NoDup_available_layers.
    + apply NoDup_seqZ.
    + intros x. apply elem_of_available_layers.
Qed.

Lemma select_layer_Ok a ix :
  (ix < dim a 1)%nat ->
  exists cells, select_layer a ix = Ok {| shape := [dim a 0; dim a 2; dim a 3]; data := cells |}.
Proof.
  intros H. unfold select_layer.
  destruct (Nat.leb_spec (dim a 1) ix); [lia|]. eauto.
Qed.

Lemma select_layer_shape a ix r :
  select_layer a ix = Ok r -> shape r = [dim a 0; dim a 2; dim a 3] /\ (ix < dim a 1)%nat.
Proof.
  unfold select_layer. destruct (Nat.leb_spec (dim a 1) ix); [done|].
  intros [= <-]. done.
Qed.

Lemma for_each_select_layer a ixs rows :
  for_each (select_layer a) ixs = Ok rows ->
  Forall (fun r => shape r = [dim a 0; dim a 2; dim a 3]) rows /\
  Forall (fun ix => (ix < dim a 1)%nat) ixs.
Proof.
  revert rows. induction ixs as [|ix ixs IH]; intros rows; simpl.
  - intros [= <-]. done.
  - destruct (select_layer a ix) as [r|] eqn:Hr; simpl; [|done].
    destruct (for_each (select_layer a) ixs) as [rs|]; simpl; [|done].
    intros [= <-]. apply select_layer_shape in Hr as [Hr1 Hr2].
    destruct (IH rs eq_refl). split; by constructor.
Qed.

Lemma for_each_select_layer_Ok a ixs :
  Forall (fun ix => (ix < dim a 1)%nat) ixs ->
  exists rows, for_each (select_layer a) ixs = Ok rows /\ length rows = length ixs.
Proof.
  induction 1 as [|ix ixs Hix _ (rows & IH & Hlen)]; simpl; [by exists []|].
  destruct (select_layer_Ok a ix Hix) as [cells ->]. simpl. rewrite IH. simpl.
  eexists. split; [done|]. simpl. by rewrite Hlen.
Qed.

Lemma sum_list_const (B N P : nat) (rows : list ndarray) :
  Forall (fun r => shape r = [B; N; P]) rows ->
  sum_list (map (fun r => dim r 1) rows) = (length rows * N)%nat.
Proof.
  induction 1 as [|r rows Hr _ IH]; simpl; [done|].
  rewrite IH. unfold dim. rewrite Hr. done.
Qed.

Lemma concatenate_axis1_same (B N P : nat) (rows : list ndarray) :
  rows <> [] -> Forall (fun r => shape r = [B; N; P]) rows ->
  exists cells, concatenate_axis1 rows = Ok {| shape := [B; (length rows * N)%nat; P]; data := cells |}.
Proof.
  intros Hne Hrows. unfold concatenate_axis1.
  destruct rows as [|r0 rows0] eqn:Heq; [done|]. rewrite <- Heq in *.
  assert (Hr0 : shape r0 = [B; N; P]).
  { rewrite Heq in Hrows. by inversion Hrows. }
  replace (forallb _ rows) with true.
  - rewrite (sum_list_const B N P) by done. unfold dim. rewrite Hr0. simpl. eauto.
  - symmetry. apply forallb_forall. intros r Hr%list_elem_of_In.
    rewrite Forall_forall in Hrows. specialize (Hrows r Hr).
    unfold dim. rewrite Hrows, Hr0. simpl. by rewrite !Nat.eqb_refl.
Qed.

Lemma reshape_rows_swapaxes01 (B M P : nat) cells :
  reshape_rows (swapaxes01 {| shape := [B; M; P]; data := cells |}) =
  if (M =? 0)%nat then Raise (ValueError (CannotReshape [M; B; P]))
  else Ok {| shape := [M; (B * (P * 1))%nat];
             data := data (swapaxes01 {| shape := [B; M; P]; data := cells |}) |}.
Proof. reflexivity. Qed.

(** The shape of the merged matrix. *)
Lemma merge_rows_Ok a ixs :
  ixs <> [] -> Forall (fun ix => (ix < dim a 1)%nat) ixs -> (1 <= dim a 2)%nat ->
  exists cells, merge_rows a ixs =
    Ok {| shape := [(length ixs * dim a 2)%nat; (dim a 0 * (dim a 3 * 1))%nat]; data := cells |}.
Proof.
  intros Hne Hixs HN. unfold merge_rows.
  destruct (for_each_select_layer_Ok a ixs Hixs) as (rows & Hrows & Hlen).
  rewrite Hrows. simpl.
  destruct (for_each_select_layer a ixs rows Hrows) as [Hshape _].
  assert (Hrne : rows <> []) by (intros ->; destruct ixs; done).
  destruct (concatenate_axis1_same _ _ _ rows Hrne Hshape) as [cells ->].
  cbn [mbind result_bind]. rewrite reshape_rows_swapaxes01, Hlen.
  destruct (Nat.eqb_spec (length ixs * dim a 2) 0) as [H0|H0].
  - destruct ixs; [done|]. simpl in H0. lia.
  - eauto.
Qed.

Lemma merge_rows_shape a ixs m :
  merge_rows a ixs = Ok m ->
  shape m = [(length ixs * dim a 2)%nat; (dim a 0 * (dim a 3 * 1))%nat].
Proof.
  unfold merge_rows. intros H.
  apply bind_Ok in H as (rows & Hrows & H).
  apply bind_Ok in H as (merged & Hm & H).
  destruct (for_each_select_layer a ixs rows Hrows) as [Hshape _].
  pose proof (for_each_Ok_length _ _ _ Hrows) as Hlen.
  destruct (decide (rows = [])) as [->|Hne]; [done|].
  destruct (concatenate_axis1_same _ _ _ rows Hne Hshape) as [cells Hc].
  rewrite Hc in Hm. injection Hm as <-.
  rewrite reshape_rows_swapaxes01 in H.
  destruct (Nat.eqb_spec (length rows * dim a 2) 0); [done|].
  injection H as <-. simpl. by rewrite Hlen.
Qed.

Lemma existsb_recorded nums layer_nums :
  (forall x, x ∈ layer_nums -> x ∈ nums) ->
  existsb (fun num => negb (bool_decide (is_Some (layer_nums_to_row_ixs nums !! num)))) layer_nums = false.
Proof.
  intros H. apply not_true_is_false. intros (x & Hx & Hb)%existsb_exists.
  apply negb_true_iff, bool_decide_eq_false in Hb. apply Hb, row_ixs_is_Some, H.
  by apply list_elem_of_In.
Qed.

Lemma existsb_unrecorded nums layer_nums x :
  x ∈ layer_nums -> x ∉ nums ->
  existsb (fun num => negb (bool_decide (is_Some (layer_nums_to_row_ixs nums !! num)))) layer_nums = true.
Proof.
  intros Hx Hn. apply existsb_exists. exists x. split; [by apply list_elem_of_In|].
  apply negb_true_iff, bool_decide_eq_false. by rewrite row_ixs_is_Some.
Qed.

Lemma elem_of_range a b x : x ∈ range a b <-> a <= x < b.
Proof. unfold range. rewrite elem_of_seqZ. lia. Qed.

Lemma ndim_check a :
  length (shape a) = 4%nat -> negb (length (shape a) =? 4)%nat = false.
Proof. intros ->. done. Qed.

(** The row of each layer when every layer was collected. *)
Lemma for_each_row_ixs_range (L : nat) :
  for_each (fun layer_num =>
      match layer_nums_to_row_ixs (range 0 (Z.of_nat L)) !! layer_num with
      | Some i => Ok i
      | None => Raise KeyError
      end) (range 0 (Z.of_nat L)) = Ok (map Z.to_nat (range 0 (Z.of_nat L))).
Proof.
  apply for_each_all_Ok. intros x Hx.
  destruct (proj2 (row_ixs_is_Some (range 0 (Z.of_nat L)) x) Hx) as [i Hi].
  rewrite Hi. f_equal. apply row_ixs_lookup in Hi.
  unfold range in Hi. apply lookup_seqZ in Hi. lia.
Qed.

Lemma reshape_unrestricted a c :
  length (shape a) = 4%nat ->
  reshape_activations a None None c =
  if existsb (fun num => negb (bool_decide (is_Some (layer_nums_to_row_ixs (recorded a c) !! num))))
       (available_layers (recorded a c))
  then Raise (ValueError (LayersNotRecorded None None (available_layers (recorded a c))))
  else gather a (recorded a c) (available_layers (recorded a c)).
Proof.
  intros H. unfold reshape_activations. rewrite ndim_check by done.
  destruct c; reflexivity.
Qed.

Lemma reshape_ranged a from_layer to_layer c :
  length (shape a) = 4%nat ->
  is_Some from_layer \/ is_Some to_layer ->
  reshape_activations a from_layer to_layer c =
  let f := default 0 from_layer in
  let t := default (Z.of_nat (dim a 0)) to_layer in
  if f =? t then Raise (ValueError (SameLayers f t))
  else if f >? t then Raise (ValueError (FromLargerThanTo f t))
  else if existsb (fun num => negb (bool_decide (is_Some (layer_nums_to_row_ixs (recorded a c) !! num))))
            (range f t)
  then Raise (ValueError (LayersNotRecorded (Some f) (Some t) (available_layers (recorded a c))))
  else gather a (recorded a c) (range f t).
Proof.
  intros H Hsome. unfold reshape_activations. rewrite ndim_check by done.
  assert (bool_decide (is_Some from_layer) || bool_decide (is_Some to_layer) = true) as ->.
  { destruct Hsome as [Hs|Hs]; rewrite (bool_decide_eq_true_2 _ Hs); [done|apply orb_true_r]. }
  cbv zeta.
  destruct (default 0 from_layer =? default (Z.of_nat (dim a 0)) to_layer); [done|].
  destruct (default 0 from_layer >? default (Z.of_nat (dim a 0)) to_layer); [done|].
  destruct c; reflexivity.
Qed.

(** C3.  Round trip: on a four-dimensional tensor with [L] layers and no
    list of collected layer ids, reshaping with the explicit range
    [0, L) and reshaping with no restriction produce the same matrix
    (first part); for [L >= 1] the two calls are equal altogether, and
    when there is at least one layer and one neuron both do produce a
    matrix, of [L * N] rows and [B * P] columns. *)
Theorem reshape_full_range_roundtrip (a : ndarray) (B L N P : nat) :
  shape a = [B; L; N; P] ->
  (forall m, reshape_activations a (Some 0) (Some (Z.of_nat L)) None = Ok m <->
             reshape_activations a None None None = Ok m) /\
  ((1 <= L)%nat ->
     reshape_activations a (Some 0) (Some (Z.of_nat L)) None =
     reshape_activations a None None None) /\
  ((1 <= L)%nat -> (1 <= N)%nat ->
     exists m, reshape_activations a None None None = Ok m /\
               shape m = [(L * N)%nat; (B * P)%nat]).
Proof.
  intros Hshape.
  assert (Hdim : dim a 0 = B /\ dim a 1 = L /\ dim a 2 = N /\ dim a 3 = P).
  { unfold dim. rewrite Hshape. done. }
  destruct Hdim as (HB & HL & HN & HP).
  assert (Hfull : reshape_activations a None None None =
                  merge_rows a (map Z.to_nat (range 0 (Z.of_nat L)))).
  { rewrite reshape_unrestricted by (by rewrite Hshape).
    unfold recorded, gather. rewrite HL. cbn [default from_option id]. rewrite available_layers_range.
    rewrite existsb_recorded by done. by rewrite for_each_row_ixs_range. }
  assert (Hrange : (1 <= L)%nat ->
            reshape_activations a (Some 0) (Some (Z.of_nat L)) None =
            merge_rows a (map Z.to_nat (range 0 (Z.of_nat L)))).
  { intros H1. rewrite reshape_ranged by (rewrite ?Hshape; eauto).
    unfold recorded, gather. rewrite HL. cbn [default from_option id]. cbv zeta.
    destruct (Z.eqb_spec 0 (Z.of_nat L)); [lia|].
    destruct (Z.gtb_spec 0 (Z.of_nat L)); [lia|].
    rewrite existsb_recorded by done. by rewrite for_each_row_ixs_range. }
  split; [|split].
  - intros m. destruct (decide (1 <= L)%nat) as [H1|H0].
    + by rewrite Hrange, Hfull.
    + assert (L = 0%nat) as -> by lia. rewrite Hfull.
      rewrite reshape_ranged by (rewrite ?Hshape; eauto). done.
  - intros H1. by rewrite Hrange, Hfull.
  - intros H1 H2. rewrite Hfull.
    destruct (merge_rows_Ok a (map Z.to_nat (range 0 (Z.of_nat L)))) as [cells Hm].
    + unfold range. rewrite seqZ_cons by lia. done.
    + apply Forall_forall. intros i Hi. apply list_elem_of_In, in_map_iff in Hi as (x & <- & Hx).
      apply list_elem_of_In, elem_of_range in Hx. lia.
    + lia.
    + eexists. split; [exact Hm|]. simpl. rewrite length_map. unfold range.
      rewrite length_seqZ, HB, HN, HP. f_equal; [|f_equal]; lia.
Qed.

Lemma reshape_full_range_roundtrip_witness :
  (forall m, reshape_activations act1 (Some 0) (Some 3) None = Ok m <->
             reshape_activations act1 None None None = Ok m) /\
  reshape_activations act1 (Some 0) (Some 3) None = reshape_activations act1 None None None /\
  exists m, reshape_activations act1 None None None = Ok m /\ shape m = [6; 4]%nat.
Proof.
  destruct (reshape_full_range_roundtrip act1 2 3 2 2 eq_refl) as (H1 & H2 & H3).
  split; [exact H1|]. split; [apply H2; lia|]. apply H3; lia.
Defined.

(** Cell [(b, l, n, p)] of [act1] holds [12 b + 4 l + 2 n + p]: the row
    of the merged matrix for layer [l] and neuron [n] holds the cells of
    sequence 0 and then those of sequence 1. *)
Example reshape_activations_demo :
  reshape_activations act1 None None None =
    Ok {| shape := [6; 4]%nat;
          data := map inject_Z [0; 1; 12; 13;  2; 3; 14; 15;  4; 5; 16; 17;
                                6; 7; 18; 19;  8; 9; 20; 21;  10; 11; 22; 23] |} /\
  reshape_activations act1 None None (Some [4; 0; 2]) =
    Ok {| shape := [6; 4]%nat;
          data := map inject_Z [4; 5; 16; 17;  6; 7; 18; 19;  8; 9; 20; 21;
                                10; 11; 22; 23;  0; 1; 12; 13;  2; 3; 14; 15] |} /\
  reshape_activations act1 None None (Some [4; 0; 2; 7]) = Raise IndexError /\
  reshape_activations {| shape := [2; 3; 4]%nat; data := data act1 |} None None None =
    Raise (ValueError (NotFourDimensions [2; 3; 4]%nat)).
Proof. repeat split; reflexivity. Qed.

(** C4.  A layer range (at least one bound given) that contains a layer
    id [x] which is not among the recorded layer ids is rejected with the
    "Not all layers ... have recorded activations" error, whose message
    lists the available layer ids: exactly the recorded ids, sorted. *)
Theorem reshape_unrecorded_layer (a : ndarray) (from_layer to_layer : option Z)
    (c : option (list Z)) (x : Z) :
  length (shape a) = 4%nat ->
  is_Some from_layer \/ is_Some to_layer ->
  default 0 from_layer <= x < default (Z.of_nat (dim a 0)) to_layer ->
  x ∉ recorded a c ->
  reshape_activations a from_layer to_layer c =
    Raise (ValueError (LayersNotRecorded (Some (default 0 from_layer))
                         (Some (default (Z.of_nat (dim a 0)) to_layer))
                         (available_layers (recorded a c)))) /\
  (forall y, y ∈ available_layers (recorded a c) <-> y ∈ recorded a c) /\
  Sorted Z.le (available_layers (recorded a c)).
Proof.
  intros Hdim Hsome Hx Hnot. split; [|split].
  - rewrite reshape_ranged by done. cbv zeta.
    destruct (Z.eqb_spec (default 0 from_layer) (default (Z.of_nat (dim a 0)) to_layer)); [lia|].
    destruct (Z.gtb_spec (default 0 from_layer) (default (Z.of_nat (dim a 0)) to_layer)); [lia|].
    by rewrite (existsb_unrecorded _ _ x) by (by rewrite ?elem_of_range).
  - intros y. apply elem_of_available_layers.
  - apply Sorted_available_layers.
Qed.

Lemma reshape_unrecorded_layer_witness :
  reshape_activations act0 (Some 0) (Some 2) (Some [0; 2; 4]) =
    Raise (ValueError (LayersNotRecorded (Some 0) (Some 2) [0; 2; 4])).
Proof.
  refine (proj1 (reshape_unrecorded_layer act0 (Some 0) (Some 2) (Some [0; 2; 4]) 1 _ _ _ _)).
  - reflexivity.
  - left. eauto.
  - simpl. lia.
  - unfold recorded. simpl. intros H. by repeat (apply elem_of_cons in H as [?|H]; [done|]); apply elem_of_nil in H.
Defined.

(** C5.  On a four-dimensional tensor a range with
    [from_layer = to_layer] is rejected ("cannot be the same value"), and
    one with [from_layer > to_layer] is rejected ("cannot be larger
    than"): an empty or inverted range is never accepted.  The bounds are
    the given ones, or the defaults of a bound that is not given. *)
Theorem reshape_empty_or_inverted_range (a : ndarray) (from_layer to_layer : option Z)
    (c : option (list Z)) :
  length (shape a) = 4%nat ->
  is_Some from_layer \/ is_Some to_layer ->
  let f := default 0 from_layer in
  let t := default (Z.of_nat (dim a 0)) to_layer in
  (f = t -> reshape_activations a from_layer to_layer c = Raise (ValueError (SameLayers f t))) /\
  (f > t ->
   reshape_activations a from_layer to_layer c = Raise (ValueError (FromLargerThanTo f t))).
Proof.
  intros Hdim Hsome f t. rewrite reshape_ranged by done. cbv zeta. fold f t.
  split; intros H.
  - destruct (Z.eqb_spec f t); [done|lia].
  - destruct (Z.eqb_spec f t); [lia|]. destruct (Z.gtb_spec f t); [done|lia].
Qed.

Lemma reshape_empty_or_inverted_range_witness :
  reshape_activations act0 (Some 3) (Some 3) None = Raise (ValueError (SameLayers 3 3)) /\
  reshape_activations act0 (Some 4) (Some 1) (Some [0; 2; 4]) =
    Raise (ValueError (FromLargerThanTo 4 1)).
Proof.
  split.
  - apply (reshape_empty_or_inverted_range act0 (Some 3) (Some 3) None); [reflexivity|eauto|done].
  - apply (reshape_empty_or_inverted_range act0 (Some 4) (Some 1) (Some [0; 2; 4]));
      [reflexivity|eauto|simpl; lia].
Defined.

(** C10.  When one bound only is given the other is defaulted: a missing
    [from_layer] is [0], a missing [to_layer] is the size of the first
    (batch) axis of the tensor, [activations.shape[0]]; the call then
    gathers the layers of [range(from_layer, to_layer)] over these
    defaults. *)
Theorem reshape_missing_bound_defaults (a : ndarray) (f t : Z) (c : option (list Z)) :
  reshape_activations a None (Some t) c = reshape_activations a (Some 0) (Some t) c /\
  reshape_activations a (Some f) None c =
    reshape_activations a (Some f) (Some (Z.of_nat (dim a 0))) c /\
  (length (shape a) = 4%nat -> f < Z.of_nat (dim a 0) ->
   (forall x, f <= x < Z.of_nat (dim a 0) -> x ∈ recorded a c) ->
   reshape_activations a (Some f) None c =
     gather a (recorded a c) (range f (Z.of_nat (dim a 0)))) /\
  (length (shape a) = 4%nat -> 0 < t ->
   (forall x, 0 <= x < t -> x ∈ recorded a c) ->
   reshape_activations a None (Some t) c = gather a (recorded a c) (range 0 t)).
Proof.
  split; [|split; [|split]].
  - unfold reshape_activations. destruct (negb _); reflexivity.
  - unfold reshape_activations. destruct (negb _); reflexivity.
  - intros Hdim Hlt Hall. rewrite reshape_ranged by eauto. cbn [default from_option id]. cbv zeta.
    destruct (Z.eqb_spec f (Z.of_nat (dim a 0))); [lia|].
    destruct (Z.gtb_spec f (Z.of_nat (dim a 0))); [lia|].
    rewrite existsb_recorded; [done|]. intros x Hx%elem_of_range. by apply Hall.
  - intros Hdim Hlt Hall. rewrite reshape_ranged by eauto. cbn [default from_option id]. cbv zeta.
    destruct (Z.eqb_spec 0 t); [lia|].
    destruct (Z.gtb_spec 0 t); [lia|].
    rewrite existsb_recorded; [done|]. intros x Hx%elem_of_range. by apply Hall.
Qed.

(** On a tensor of 2 sequences and 3 layers a missing [to_layer] is 2:
    the layers 0 and 1 are gathered (4 rows of neurons), not all 3. *)
Example reshape_missing_to_layer :
  shape <$> reshape_activations act1 (Some 0) None None = Ok [4; 4]%nat /\
  shape <$> reshape_activations act1 None None None = Ok [6; 4]%nat /\
  reshape_activations act1 (Some 2) None None = Raise (ValueError (SameLayers 2 2)).
Proof. repeat split; reflexivity. Qed.

(** ** The factorization *)

Lemma for_each_Raise {A B} (f : A -> result B) l e :
  for_each f l = Raise e -> exists x, x ∈ l /\ f x = Raise e.
Proof.
  induction l as [|x l IH]; simpl; [done|].
  destruct (f x) as [y|e'] eqn:Hx; simpl.
  - destruct (for_each f l) as [ys|e'']; simpl; [done|].
    intros [= ->]. destruct IH as (x' & Hin & Hx'); [done|].
    exists x'. split; [by right|done].
  - intros [= ->]. exists x. split; [by left|done].
Qed.

Lemma merge_rows_no_data a ixs :
  merge_rows a ixs <> Raise (ValueError NoActivationData).
Proof.
  unfold merge_rows. intros H.
  destruct (for_each (select_layer a) ixs) as [rows|e] eqn:Hrows; simpl in H.
  - destruct (concatenate_axis1 rows) as [merged|e] eqn:Hm; simpl in H.
    + unfold reshape_rows in H. by destruct (_ =? _)%nat.
    + injection H as ->. unfold concatenate_axis1 in Hm.
      destruct rows; [done|]. by destruct (forallb _ _).
  - injection H as ->. apply for_each_Raise in Hrows as (ix & _ & Hix).
    unfold select_layer in Hix. by destruct (_ <=? _)%nat.
Qed.

Lemma gather_no_data a nums layer_nums :
  gather a nums layer_nums <> Raise (ValueError NoActivationData).
Proof.
  unfold gather. intros H.
  destruct (for_each _ layer_nums) as [ixs|e] eqn:Hixs; simpl in H.
  - by apply merge_rows_no_data in H.
  - injection H as ->. apply for_each_Raise in Hixs as (x & _ & Hx).
    by destruct (_ !! x).
Qed.

Lemma reshape_cases (a : ndarray) (from_layer to_layer : option Z) :
  length (shape a) <> 4%nat \/
  length (shape a) = 4%nat /\ from_layer = None /\ to_layer = None \/
  length (shape a) = 4%nat /\ (is_Some from_layer \/ is_Some to_layer).
Proof.
  destruct (decide (length (shape a) = 4%nat)); [|by left]. right.
  destruct from_layer; [right; eauto|]. destruct to_layer; [right; eauto|]. by left.
Qed.

Lemma reshape_no_data a from_layer to_layer c :
  reshape_activations a from_layer to_layer c <> Raise (ValueError NoActivationData).
Proof.
  destruct (reshape_cases a from_layer to_layer) as [H|[(H & -> & ->)|[H Hs]]].
  - unfold reshape_activations. apply Nat.eqb_neq in H. by rewrite H.
  - rewrite reshape_unrestricted by done. destruct (existsb _ _); [done|apply gather_no_data].
  - rewrite reshape_ranged by done. cbv zeta.
    repeat (match goal with |- context [if ?b then _ else _] => destruct b end; [done|]).
    apply gather_no_data.
Qed.

Lemma reshape_Ok_shape a from_layer to_layer c m :
  reshape_activations a from_layer to_layer c = Ok m ->
  exists rows : nat, shape m = [rows; (dim a 0 * dim a 3)%nat].
Proof.
  assert (Hg : forall nums layer_nums, gather a nums layer_nums = Ok m ->
            exists rows : nat, shape m = [rows; (dim a 0 * dim a 3)%nat]).
  { intros nums layer_nums (ixs & _ & Hm)%bind_Ok. apply merge_rows_shape in Hm.
    rewrite Hm. eexists. f_equal. f_equal. lia. }
  destruct (reshape_cases a from_layer to_layer) as [H|[(H & -> & ->)|[H Hs]]].
  - unfold reshape_activations. apply Nat.eqb_neq in H. by rewrite H.
  - rewrite reshape_unrestricted by done. destruct (existsb _ _); [done|apply Hg].
  - rewrite reshape_ranged by done. cbv zeta.
    repeat (match goal with |- context [if ?b then _ else _] => destruct b end; [done|]).
    apply Hg.
Qed.

(** C6.  The factorization is set up with
    [n_components = min(requested, number of positions)], the number of
    positions being the last axis of the reshaped matrix (batch times
    position): a requested count above it is capped to it, and the only
    exception that can follow is one of the fit itself.  (Of a negative
    count [np.zeros] makes a negative dimension.) *)
Theorem NMF_init_caps_n_components (fit_transform : sk_NMF -> ndarray -> nat + ndarray)
    (a : ndarray) (n_input_tokens : Z) (token_ids : list (list Z)) (requested : Z)
    (tokens : list (list string)) (c : option (list Z)) (from_layer to_layer : option Z)
    (m : ndarray) :
  reshape_activations a from_layer to_layer c = Ok m ->
  let positions := Z.of_nat (dim a 0 * dim a 3) in
  let settings := {| n_components := Z.min requested positions; init := "random";
                     random_state := 0; max_iter := 500 |} in
  dim m 1 = (dim a 0 * dim a 3)%nat /\
  (positions < requested -> n_components settings = positions) /\
  (0 <= requested ->
   NMF_init fit_transform (Array a) n_input_tokens token_ids requested tokens c
     from_layer to_layer =
   match fit_transform settings (transpose (maximum0 m)) with
   | inr fitted =>
       Ok {| nmf_token_ids := token_ids; nmf_n_input_tokens := n_input_tokens;
             nmf_tokens := tokens; nmf_activations := transpose (maximum0 m);
             model := settings; components := transpose fitted |}
   | inl code => Raise (FitError code)
   end) /\
  (requested < 0 ->
   NMF_init fit_transform (Array a) n_input_tokens token_ids requested tokens c
     from_layer to_layer = Raise (ValueError NegativeDimensions)).
Proof.
  intros Hm positions settings.
  destruct (reshape_Ok_shape _ _ _ _ _ Hm) as [rows Hshape].
  assert (Hdim : dim m 1 = (dim a 0 * dim a 3)%nat) by (unfold dim at 1; by rewrite Hshape).
  split; [done|]. split; [simpl; lia|].
  unfold NMF_init. rewrite Hm. cbn [mbind result_bind].
  rewrite Hshape. cbn [length Nat.sub]. rewrite Hdim. fold positions.
  split; intros Hreq.
  - destruct (Z.ltb_spec (Z.min requested positions) 0); [lia|].
    fold settings. by destruct (fit_transform settings _).
  - destruct (Z.ltb_spec (Z.min requested positions) 0); [done|lia].
Qed.

Lemma NMF_init_caps_n_components_witness :
  exists nmf,
    NMF_init fit_zeros (Array act1) 2 [[5; 6; 7]] 10 [["a"; "b"; "c"]] None None None = Ok nmf /\
    n_components (model nmf) = 4 /\ shape (components nmf) = [4; 4]%nat.
Proof.
  destruct (NMF_init_caps_n_components fit_zeros act1 2 [[5; 6; 7]] 10 [["a"; "b"; "c"]]
              None None None _ eq_refl) as (_ & _ & Hinit & _).
  rewrite Hinit by lia. eexists. split; [reflexivity|]. split; reflexivity.
Defined.

(** C7.  With no activations (the empty list) the constructor raises the
    "No activation data found. Make sure 'activations=True' was passed
    ..." error; with an array it never raises that error. *)
Theorem NMF_init_empty_activations (fit_transform : sk_NMF -> ndarray -> nat + ndarray)
    (n_input_tokens : Z) (token_ids : list (list Z)) (requested : Z)
    (tokens : list (list string)) (c : option (list Z)) (from_layer to_layer : option Z) :
  NMF_init fit_transform EmptyList n_input_tokens token_ids requested tokens c
    from_layer to_layer = Raise (ValueError NoActivationData) /\
  forall a : ndarray,
    NMF_init fit_transform (Array a) n_input_tokens token_ids requested tokens c
      from_layer to_layer <> Raise (ValueError NoActivationData).
Proof.
  split; [done|]. intros a. unfold NMF_init.
  destruct (reshape_activations a from_layer to_layer c) as [m|e] eqn:Hm.
  - cbn [mbind result_bind]. destruct (_ <? 0); [done|].
    by destruct (fit_transform _ _).
  - cbn [mbind result_bind]. intros [= ->]. by apply reshape_no_data in Hm.
Qed.

(** ** Positions *)


Example position_inside :
  position self_flat 3 "grad_x_input" =
    Ok [ {| pv_token := ["a"]; pv_token_id := 5; pv_type := input; pv_value := 1 |};
         {| pv_token := ["b"]; pv_token_id := 6; pv_type := input; pv_value := 2 |};
         {| pv_token := ["c"]; pv_token_id := 7; pv_type := output; pv_value := 3 |};
         {| pv_token := ["d"]; pv_token_id := 8; pv_type := output; pv_value := (-1) |} ].
Proof. reflexivity. Qed.

Example position_outside :
  position self_flat 1 "grad_x_input" = Raise (ValueError (PositionNotGenerated 2 3)) /\
  position self_flat 4 "grad_x_input" = Raise (ValueError (PositionNotGenerated 2 3)).
Proof. split; reflexivity. Qed.

(** ** The presentation of the factors *)

Lemma getitem_Ok_nat {A} (l : list A) (i : nat) x :
  l !! i = Some x -> getitem l (Z.of_nat i) = Ok x.
Proof.
  intros H. pose proof (lookup_lt_Some _ _ _ H). unfold getitem.
  destruct (Z.ltb_spec (Z.of_nat i) 0); [lia|].
  destruct (Z.ltb_spec (Z.of_nat i) 0); [lia|].
  destruct (Z.leb_spec (Z.of_nat (length l)) (Z.of_nat i)); [lia|].
  cbn [orb]. by rewrite Nat2Z.id, H.
Qed.












(** With no input token the slice [comp[-1:]] keeps the last value only. *)
Example duplicate_boundary_no_input :
  duplicate_boundary 0 (map inject_Z [10; 20; 30]) = map inject_Z [30].
Proof. reflexivity. Qed.

(** ** Sorting scores *)

Section Argsort.

Variable scores : list Q.

Lemma before_le i j : before scores i j -> (score scores i <= score scores j)%Q.
Proof.
  intros [H|[H _]]; [by apply Qlt_le_weak|]. rewrite H. apply Qle_refl.
Qed.

Lemma insert_by_Permutation i l : insert_by scores i l ≡ₚ i :: l.
Proof.
  induction l as [|j l IH]; simpl; [done|].
  destruct (Qle_bool _ _); [done|]. rewrite IH. apply Permutation_swap.
Qed.

(** Inserting an index smaller than all those of a sorted list keeps it
    sorted: on a tie the smaller index goes first. *)
Lemma insert_by_sorted i l :
  Forall (fun j => (i < j)%nat) l ->
  StronglySorted (before scores) l ->
  StronglySorted (before scores) (insert_by scores i l).
Proof.
  intros Hlt Hs. induction Hs as [|j l Hs IH Hj]; simpl.
  - repeat constructor.
  - apply Forall_cons in Hlt as [Hij Hlt].
    destruct (Qle_bool (score scores i) (score scores j)) eqn:Hle.
    + apply Qle_bool_iff in Hle.
      assert (Hbij : before scores i j).
      { apply Qle_lteq in Hle as [Hle|Hle]; [by left|by right]. }
      constructor; [by constructor|]. constructor; [done|].
      rewrite Forall_forall in Hj, Hlt |- *. intros x Hx.
      specialize (Hj x Hx). specialize (Hlt x Hx). apply before_le in Hj.
      assert (Hix : (score scores i <= score scores x)%Q) by (by eapply Qle_trans).
      apply Qle_lteq in Hix as [Hix|Hix]; [by left|by right].
    + constructor; [by apply IH|].
      rewrite insert_by_Permutation. constructor; [|done].
      left. apply Qnot_le_lt. intros Hle'. apply Qle_bool_iff in Hle'. congruence.
Qed.

Lemma argsort_from_sorted k n :
  StronglySorted (before scores) (foldr (insert_by scores) [] (seq k n)) /\
  foldr (insert_by scores) [] (seq k n) ≡ₚ seq k n.
Proof.
  revert k. induction n as [|n IH]; intros k; simpl; [by split; [constructor|]|].
  destruct (IH (S k)) as [Hs Hp]. split.
  - apply insert_by_sorted; [|done]. rewrite Hp. apply Forall_forall.
    intros j Hj%list_elem_of_In%in_seq. lia.
  - by rewrite insert_by_Permutation, Hp.
Qed.

Lemma argsort_sorted : StronglySorted (before scores) (argsort scores).
Proof. apply argsort_from_sorted. Qed.

Lemma argsort_Permutation : argsort scores ≡ₚ seq 0 (length scores).
Proof. apply argsort_from_sorted. Qed.

Lemma argsort_length : length (argsort scores) = length scores.
Proof. by rewrite argsort_Permutation, length_seq. Qed.

Lemma argsort_NoDup : NoDup (argsort scores).
Proof. rewrite argsort_Permutation. apply NoDup_seq. Qed.

Lemma elem_of_argsort t : t ∈ argsort scores <-> (t < length scores)%nat.
Proof. rewrite argsort_Permutation, list_elem_of_In, in_seq. lia. Qed.

End Argsort.

(** The positions at which a list without repetitions holds a token. *)
Lemma nonzero_eq_from (l : list nat) (k : nat) (token_id : Z) :
  NoDup l ->
  map (fun p => Z.of_nat (fst p))
      (filter (fun p => Z.of_nat (snd p) = token_id) (zip (seq k (length l)) l)) =
  match list_find (fun x => Z.of_nat x = token_id) l with
  | Some (p, _) => [Z.of_nat (k + p)]
  | None => []
  end.
Proof.
  intros Hnd. revert k. induction Hnd as [|x l Hx Hnd IH]; intros k; [done|].
  cbn [length seq zip zip_with]. rewrite filter_cons. cbn [snd list_find].
  destruct (decide (Z.of_nat x = token_id)) as [Hxt|Hxt].
  - cbn [map fst]. rewrite Nat.add_0_r. f_equal.
    rewrite IH. destruct (list_find _ l) as [[p y]|] eqn:Hf; [|done].
    apply list_find_Some in Hf as (Hy & Hyt & _). exfalso. apply Hx.
    assert (y = x) as -> by lia. by eapply list_elem_of_lookup_2.
  - rewrite IH. destruct (list_find _ l) as [[p y]|]; [|done]. simpl.
    do 2 f_equal. lia.
Qed.

Lemma nonzero_eq_at (sorted : list nat) (p t : nat) :
  NoDup sorted -> sorted !! p = Some t ->
  nonzero_eq sorted (Z.of_nat t) = [Z.of_nat p].
Proof.
  intros Hnd Hp. unfold nonzero_eq, enumerate. rewrite nonzero_eq_from by done.
  destruct (list_find _ sorted) as [[q y]|] eqn:Hf.
  - apply list_find_Some in Hf as (Hy & Hyt & _). assert (y = t) as -> by lia.
    by rewrite (NoDup_lookup _ _ _ _ Hnd Hy Hp).
  - apply list_find_None in Hf. rewrite Forall_forall in Hf.
    destruct (Hf t); [by eapply list_elem_of_lookup_2|done].
Qed.

Lemma nonzero_eq_absent (sorted : list nat) (token_id : Z) :
  NoDup sorted -> (forall t, t ∈ sorted -> Z.of_nat t <> token_id) ->
  nonzero_eq sorted token_id = [].
Proof.
  intros Hnd Habs. unfold nonzero_eq, enumerate. rewrite nonzero_eq_from by done.
  destruct (list_find _ sorted) as [[q y]|] eqn:Hf; [|done].
  apply list_find_Some in Hf as (Hy & Hyt & _).
  destruct (Habs y); [by eapply list_elem_of_lookup_2|done].
Qed.

Lemma StronglySorted_lookup_lt {A} (R : relation A) (l : list A) i j x y :
  StronglySorted R l -> l !! i = Some x -> l !! j = Some y -> (i < j)%nat -> R x y.
Proof.
  intros Hs. revert i j. induction Hs as [|z l Hs IH Hz]; intros i j Hi Hj Hlt; [done|].
  destruct j as [|j]; [lia|]. destruct i as [|i]; simpl in *.
  - injection Hi as ->. rewrite Forall_forall in Hz. apply Hz.
    by eapply list_elem_of_lookup_2.
  - eapply IH; [done..|lia].
Qed.

(** ** Rankings *)

Lemma rank_of_at (logits : list Q) (p t : nat) :
  argsort logits !! p = Some t ->
  rank_of logits (Z.of_nat t) = Ok (Z.of_nat (length logits) - Z.of_nat p).
Proof.
  intros Hp. unfold rank_of.
  rewrite (nonzero_eq_at _ p t) by (done || apply argsort_NoDup).
  by rewrite argsort_length.
Qed.

(** A token id outside the vocabulary has no rank: [int] is applied to
    an empty tensor. *)
Lemma rank_of_absent (logits : list Q) (token_id : Z) :
  ~ (0 <= token_id < Z.of_nat (length logits)) ->
  rank_of logits token_id = Raise (ValueError NotOneElement).
Proof.
  intros Hout. unfold rank_of. rewrite nonzero_eq_absent; [done|apply argsort_NoDup|].
  intros t Ht%elem_of_argsort. lia.
Qed.

(** ** Any ascending order *)

Lemma ascending_order_argsort (logits : list Q) : ascending_order logits (argsort logits).
Proof.
  split; [apply argsort_Permutation|].
  pose proof (argsort_sorted logits) as Hs.
  induction Hs as [|x l Hs IH Hx]; constructor; [done|].
  eapply Forall_impl; [exact Hx|]. intros y Hy. by apply before_le.
Qed.

Lemma rank_of_rank_in (logits : list Q) (token_id : Z) :
  rank_of logits token_id = rank_in (argsort logits) token_id.
Proof. reflexivity. Qed.

Section Ascending.

Variable logits : list Q.
Variable sorted : list nat.
Hypothesis Hasc : ascending_order logits sorted.

Lemma ascending_order_length : length sorted = length logits.
Proof. destruct Hasc as [Hp _]. by rewrite Hp, length_seq. Qed.

Lemma ascending_order_NoDup : NoDup sorted.
Proof. destruct Hasc as [Hp _]. rewrite Hp. apply NoDup_seq. Qed.

Lemma elem_of_ascending_order t : t ∈ sorted <-> (t < length logits)%nat.
Proof. destruct Hasc as [Hp _]. rewrite Hp, list_elem_of_In, in_seq. lia. Qed.

Lemma ascending_order_lookup p q t u :
  sorted !! p = Some t -> sorted !! q = Some u -> (p < q)%nat ->
  (score logits t <= score logits u)%Q.
Proof.
  destruct Hasc as [_ Hs]. intros Hp Hq Hlt.
  exact (StronglySorted_lookup_lt _ _ p q _ _ Hs Hp Hq Hlt).
Qed.

Lemma rank_in_at p t :
  sorted !! p = Some t ->
  rank_in sorted (Z.of_nat t) = Ok (Z.of_nat (length logits) - Z.of_nat p).
Proof.
  intros Hp. unfold rank_in.
  rewrite (nonzero_eq_at _ p t) by (done || apply ascending_order_NoDup).
  by rewrite ascending_order_length.
Qed.

Lemma rank_in_absent token_id :
  ~ (0 <= token_id < Z.of_nat (length logits)) ->
  rank_in sorted token_id = Raise (ValueError NotOneElement).
Proof.
  intros Hout. unfold rank_in.
  rewrite nonzero_eq_absent; [done|apply ascending_order_NoDup|].
  intros t Ht%elem_of_ascending_order. lia.
Qed.

Lemma rank_in_Ok_inv token_id r :
  rank_in sorted token_id = Ok r ->
  exists t p : nat, token_id = Z.of_nat t /\ sorted !! p = Some t /\
                    r = Z.of_nat (length logits) - Z.of_nat p.
Proof.
  intros Hr. destruct (decide (0 <= token_id < Z.of_nat (length logits))) as [Hin|Hout].
  - assert (Ht : (Z.to_nat token_id < length logits)%nat) by lia.
    apply elem_of_ascending_order, list_elem_of_lookup in Ht as [p Hp].
    exists (Z.to_nat token_id), p. split; [lia|]. split; [done|].
    rewrite <- (Z2Nat.id token_id) in Hr by lia. rewrite (rank_in_at _ _ Hp) in Hr.
    congruence.
  - by rewrite rank_in_absent in Hr.
Qed.

(** The token at the end of the order has a maximal score. *)
Lemma ascending_order_last p t :
  sorted !! p = Some t -> S p = length logits -> is_argmax logits t.
Proof.
  intros Hp Hlast. split; [by eapply elem_of_ascending_order, list_elem_of_lookup_2|].
  intros u Hu. apply elem_of_ascending_order, list_elem_of_lookup in Hu as [q Hq].
  pose proof (lookup_lt_Some _ _ _ Hq) as Hlt. rewrite ascending_order_length in Hlt.
  destruct (decide (q = p)) as [->|Hne].
  - assert (u = t) as -> by congruence. apply Qle_refl.
  - apply (ascending_order_lookup q p); [done..|lia].
Qed.

(** A token whose score is strictly above all others is at the end. *)
Lemma ascending_order_strict p t :
  sorted !! p = Some t ->
  (forall u, (u < length logits)%nat -> u <> t -> (score logits u < score logits t)%Q) ->
  S p = length logits.
Proof.
  intros Hp Hstrict. pose proof (lookup_lt_Some _ _ _ Hp) as Hlt.
  rewrite ascending_order_length in Hlt.
  destruct (decide (S p = length logits)) as [|Hne]; [done|]. exfalso.
  destruct (lookup_lt_is_Some_2 sorted (S p)) as [u Hu].
  { rewrite ascending_order_length. lia. }
  assert (Hul : (u < length logits)%nat).
  { by eapply elem_of_ascending_order, list_elem_of_lookup_2. }
  assert (Hne' : u <> t).
  { intros ->. pose proof (NoDup_lookup _ _ _ _ ascending_order_NoDup Hp Hu). lia. }
  pose proof (ascending_order_lookup p (S p) t u Hp Hu ltac:(lia)) as Hle.
  apply (Qlt_irrefl (score logits t)). eapply Qle_lt_trans; [exact Hle|]. by apply Hstrict.
Qed.

End Ascending.

(** An ascending order of [logits_demo] that does not keep the tied
    tokens in the order of their ids. *)
Lemma ascending_order_demo : ascending_order logits_demo [3; 1; 2; 4; 0]%nat.
Proof.
  split.
  - apply NoDup_Permutation; [apply (bool_decide_unpack _); by vm_compute|apply NoDup_seq|].
    intros x. simpl. rewrite !elem_of_cons, !elem_of_nil. lia.
  - repeat constructor; by vm_compute.
Qed.

(** ** The matrices of rankings *)

Lemma slice_from_1_lookup {A} (l : list A) i : slice_from l 1 !! i = l !! S i.
Proof.
  unfold slice_from, slice_index. rewrite lookup_drop.
  destruct l as [|x l]; [done|]. f_equal. simpl length. cbn [Z.ltb Z.compare]. lia.
Qed.

Lemma enumerate_lookup {A} (l : list A) j p :
  enumerate l !! j = Some p -> p.1 = j /\ l !! j = Some p.2.
Proof.
  unfold enumerate. intros H. destruct p as [j' x].
  apply lookup_zip_Some in H as [H1 H2]. apply lookup_seq in H1 as [-> _]. done.
Qed.

Lemma rankings_row (self : OutputSeq) m i row :
  rankings self = Ok m -> m !! i = Some row ->
  exists embedding level,
    getitem (hidden_states self) 0 = Ok embedding /\
    hidden_states self !! S i = Some level /\
    length row = Z.to_nat (Z.of_nat (length embedding) - n_input_tokens self + 1) /\
    (forall j hidden_state,
       slice_from level (n_input_tokens self - 1) !! j = Some hidden_state ->
       exists ids token_id r,
         getitem (token_ids self) 0 = Ok ids /\
         getitem ids (n_input_tokens self + Z.of_nat j) = Ok token_id /\
         rank_of (lm_head self hidden_state) token_id = Ok r /\
         row !! j = Some r) /\
    (forall j,
       (length (slice_from level (n_input_tokens self - 1)) <= j < length row)%nat ->
       row !! j = Some 0).
Proof.
  unfold rankings. intros H Hi.
  apply bind_Ok in H as (embedding & Hemb & H).
  destruct (_ || _); [done|].
  apply bind_Ok in H as (rows & Hrows & H).
  apply bind_Ok in H as (? & _ & [= <-]).
  destruct (for_each_Ok_lookup _ _ _ _ _ Hrows Hi) as (level & Hlevel & Hrow).
  rewrite slice_from_1_lookup in Hlevel.
  apply bind_Ok in Hrow as (written & Hw & [= <-]).
  exists embedding, level. split; [done|]. split; [done|].
  set (position := Z.of_nat (length embedding) - n_input_tokens self + 1) in *.
  set (states := slice_from level (n_input_tokens self - 1)) in *.
  pose proof (for_each_Ok_length _ _ _ Hw) as Hlen.
  assert (Hle : length (enumerate states) = length states).
  { unfold enumerate. rewrite length_zip, length_seq. lia. }
  rewrite Hle in Hlen. clear Hle.
  assert (Hentries : forall j h, states !! j = Some h ->
            exists ids token_id r,
              getitem (token_ids self) 0 = Ok ids /\
              getitem ids (n_input_tokens self + Z.of_nat j) = Ok token_id /\
              rank_of (lm_head self h) token_id = Ok r /\
              written !! j = Some r /\ Z.of_nat j < position).
  { intros j h Hh. destruct (lookup_lt_is_Some_2 written j) as [r Hr].
    { rewrite Hlen. by eapply lookup_lt_Some. }
    destruct (for_each_Ok_lookup _ _ _ _ _ Hw Hr) as ([j' h'] & Hh' & Hf).
    apply enumerate_lookup in Hh' as [Hj' Hh']. simpl in Hj', Hh'. subst j'.
    assert (h' = h) as -> by congruence.
    apply bind_Ok in Hf as (ids & Hids & Hf).
    apply bind_Ok in Hf as (tid & Htid & Hf).
    destruct (Z.leb_spec position (Z.of_nat j)); [done|].
    apply bind_Ok in Hf as (r' & Hrank & Hf).
    apply bind_Ok in Hf as (? & _ & [= ->]).
    by exists ids, tid, r. }
  assert (Hfit : (length written <= Z.to_nat position)%nat).
  { destruct (decide (length written = 0%nat)) as [|Hne]; [lia|].
    destruct (lookup_lt_is_Some_2 states (length written - 1)) as [h Hh]; [lia|].
    destruct (Hentries _ _ Hh) as (? & ? & ? & _ & _ & _ & _ & Hlt). lia. }
  split; [rewrite length_app, length_replicate; lia|]. split.
  - intros j h Hh. destruct (Hentries j h Hh) as (ids & tid & r & ? & ? & ? & Hr & _).
    exists ids, tid, r. rewrite lookup_app_l by (by eapply lookup_lt_Some). done.
  - intros j [Hj1 Hj2]. rewrite length_app, length_replicate in Hj2.
    rewrite lookup_app_r by lia. apply lookup_replicate_2. lia.
Qed.

Lemma rankings_watch_entry (self : OutputSeq) (watch : list Z) (position : Z) m i row j r :
  rankings_watch self watch position = Ok m -> m !! i = Some row -> row !! j = Some r ->
  exists level hidden_state token_id,
    hidden_states self !! S i = Some level /\
    getitem level (if negb (position =? -1) then position - 1 else position) = Ok hidden_state /\
    watch !! j = Some token_id /\
    rank_of (lm_head self hidden_state) token_id = Ok r.
Proof.
  unfold rankings_watch. intros H Hi Hj.
  destruct (_ <? _); [done|].
  apply bind_Ok in H as (rows & Hrows & H).
  apply bind_Ok in H as (? & _ & [= <-]).
  destruct (for_each_Ok_lookup _ _ _ _ _ Hrows Hi) as (level & Hlevel & Hrow).
  rewrite slice_from_1_lookup in Hlevel.
  destruct (for_each_Ok_lookup _ _ _ _ _ Hrow Hj) as (tid & Htid & Hr).
  apply bind_Ok in Hr as (h & Hh & Hr).
  by exists level, h, tid.
Qed.

(** C1 (as amended).  Whatever ascending order [torch.argsort] returns,
    the rank of a token [t] of the vocabulary is the vocabulary size
    minus the index of [t] in that order, and lies between 1 and the
    vocabulary size.  It is 1 whenever the score of [t] is strictly
    above every other score, and only when the score of [t] is maximal;
    exactly one token has rank 1, so of several tokens that tie for the
    maximal score one has rank 1 and which one is left to the sort.  The
    ranking step of the model is this computation on one such order,
    and every entry the loops of [rankings] and of [rankings_watch]
    write is computed this way (the entries of a row of [rankings] that
    its loop does not reach stay 0). *)
Theorem rank_is_vocab_minus_sorted_index (logits : list Q) (sorted : list nat) (t : nat) :
  ascending_order logits sorted ->
  (t < length logits)%nat ->
  let vocab_size := Z.of_nat (length logits) in
  (exists p : nat,
     sorted !! p = Some t /\
     rank_in sorted (Z.of_nat t) = Ok (vocab_size - Z.of_nat p) /\
     1 <= vocab_size - Z.of_nat p <= vocab_size /\
     (vocab_size - Z.of_nat p = 1 -> is_argmax logits t) /\
     ((forall u, (u < length logits)%nat -> u <> t -> (score logits u < score logits t)%Q) ->
      vocab_size - Z.of_nat p = 1)) /\
  (exists top : nat,
     is_argmax logits top /\
     forall u : nat, rank_in sorted (Z.of_nat u) = Ok 1 <-> u = top) /\
  (ascending_order logits (argsort logits) /\
   forall token_id, rank_of logits token_id = rank_in (argsort logits) token_id) /\
  (forall (self : OutputSeq) m i row,
     rankings self = Ok m -> m !! i = Some row ->
     exists embedding level,
       getitem (hidden_states self) 0 = Ok embedding /\
       hidden_states self !! S i = Some level /\
       length row = Z.to_nat (Z.of_nat (length embedding) - n_input_tokens self + 1) /\
       (forall j hidden_state,
          slice_from level (n_input_tokens self - 1) !! j = Some hidden_state ->
          exists ids token_id r,
            getitem (token_ids self) 0 = Ok ids /\
            getitem ids (n_input_tokens self + Z.of_nat j) = Ok token_id /\
            rank_of (lm_head self hidden_state) token_id = Ok r /\
            row !! j = Some r) /\
       (forall j,
          (length (slice_from level (n_input_tokens self - 1)) <= j < length row)%nat ->
          row !! j = Some 0)) /\
  (forall (self : OutputSeq) (watch : list Z) (position : Z) m i row j r,
     rankings_watch self watch position = Ok m -> m !! i = Some row -> row !! j = Some r ->
     exists level hidden_state token_id,
       hidden_states self !! S i = Some level /\
       getitem level (if negb (position =? -1) then position - 1 else position)
         = Ok hidden_state /\
       watch !! j = Some token_id /\
       rank_of (lm_head self hidden_state) token_id = Ok r).
Proof.
  intros Hasc Ht vocab_size.
  pose proof (ascending_order_length logits sorted Hasc) as Hlen.
  split; [|split; [|split; [|split]]].
  - pose proof Ht as Hin.
    apply (elem_of_ascending_order logits sorted Hasc), list_elem_of_lookup in Hin as [p Hp].
    pose proof (lookup_lt_Some _ _ _ Hp) as Hlt. rewrite Hlen in Hlt.
    exists p. split; [done|]. split; [by apply rank_in_at|].
    split; [unfold vocab_size; lia|]. split.
    + intros H1. apply (ascending_order_last logits sorted Hasc p); [done|].
      unfold vocab_size in H1. lia.
    + intros Hstrict.
      pose proof (ascending_order_strict logits sorted Hasc p t Hp Hstrict).
      unfold vocab_size. lia.
  - destruct (lookup_lt_is_Some_2 sorted (length logits - 1)) as [top Htop]; [lia|].
    exists top. split.
    { apply (ascending_order_last logits sorted Hasc _ _ Htop). lia. }
    intros u. split.
    + intros Hu. apply (rank_in_Ok_inv logits sorted Hasc) in Hu as (u' & p & Heq & Hp & Hr).
      apply Nat2Z.inj in Heq as <-.
      assert (p = (length logits - 1)%nat) as -> by lia. congruence.
    + intros ->. rewrite (rank_in_at logits sorted Hasc _ _ Htop). f_equal. lia.
  - split; [apply ascending_order_argsort|]. intros token_id. apply rank_of_rank_in.
  - apply rankings_row.
  - apply rankings_watch_entry.
Qed.

Lemma rank_is_vocab_minus_sorted_index_witness :
  ascending_order logits_demo [3; 1; 2; 4; 0]%nat /\
  rank_in [3; 1; 2; 4; 0]%nat 0 = Ok 1 /\ is_argmax logits_demo 0 /\
  rank_in [3; 1; 2; 4; 0]%nat 2 = Ok 3.
Proof.
  destruct (rank_is_vocab_minus_sorted_index logits_demo [3; 1; 2; 4; 0]%nat 0
              ascending_order_demo) as [(p & Hp & Hr & _ & Hmax & _) _]; [simpl; lia|].
  assert (p = 4%nat) as ->.
  { do 5 (destruct p as [|p]; [by simplify_eq|]). done. }
  split; [exact ascending_order_demo|]. split; [exact Hr|]. split; [by apply Hmax|].
  reflexivity.
Defined.

(** The claim as first stated fails on tied scores: a hidden state of
    zeros projects to equal scores, both tokens are arg-maxima (token 0
    is the one [argmax] returns), and whichever of the two ascending
    orders the sort returns, one of them has rank 2. *)
Lemma rank_of_tie_counterexample :
  is_argmax (project head_demo [0; 0]%Q) 0 /\
  is_argmax (project head_demo [0; 0]%Q) 1 /\
  argmax (project head_demo [0; 0]%Q) = 0%nat /\
  (ascending_order (project head_demo [0; 0]%Q) [0; 1]%nat /\
   rank_in [0; 1]%nat 0 = Ok 2) /\
  (ascending_order (project head_demo [0; 0]%Q) [1; 0]%nat /\
   rank_in [1; 0]%nat 1 = Ok 2).
Proof.
  assert (Hmax : forall t, (t < 2)%nat -> is_argmax (project head_demo [0; 0]%Q) t).
  { intros t Ht. split; [simpl; lia|]. intros u Hu. simpl in Hu.
    destruct t as [|[|t]], u as [|[|u]]; try lia; done. }
  split; [apply Hmax; lia|]. split; [apply Hmax; lia|]. split; [reflexivity|]. split.
  - split; [|reflexivity]. split; [done|]. repeat constructor; by vm_compute.
  - split; [|reflexivity]. split; [apply Permutation_swap|]. repeat constructor; by vm_compute.
Qed.

Example rankings_demo :
  (m ← rankings self_demo; Ok (m !! 1%nat)) = Ok (Some [2; 2]) /\
  rankings_watch self_demo [0; 1] 2 = Ok [[2; 1]; [1; 2]] /\
  rankings_watch self_demo [2] (-1) = Raise (ValueError NotOneElement).
Proof. repeat split; reflexivity. Qed.

(** ** Layer predictions *)

Lemma StronglySorted_drop {A} (R : relation A) (l : list A) n :
  StronglySorted R l -> StronglySorted R (drop n l).
Proof.
  intros H. rewrite <- (take_drop n l) in H. by apply StronglySorted_app in H as (_ & _ & H).
Qed.

Lemma StronglySorted_reverse {A} (R : relation A) (l : list A) :
  StronglySorted R l -> StronglySorted (flip R) (reverse l).
Proof.
  induction 1 as [|x l Hs IH Hx]; [constructor|].
  rewrite reverse_cons. apply StronglySorted_app_2; [|done|repeat constructor].
  intros y z Hy ->%list_elem_of_singleton. rewrite elem_of_reverse in Hy.
  rewrite Forall_forall in Hx. by apply Hx.
Qed.

Lemma StronglySorted_map_on {A B} (R1 : relation A) (R2 : relation B) (P : A -> Prop)
    (f : A -> B) (l : list A) :
  (forall x y, P x -> P y -> R1 x y -> R2 (f x) (f y)) ->
  Forall P l -> StronglySorted R1 l -> StronglySorted R2 (map f l).
Proof.
  intros Hf HP Hs. revert HP. induction Hs as [|x l Hs IH Hx]; intros HP; [constructor|].
  apply Forall_cons in HP as [HPx HP]. simpl. constructor; [by apply IH|].
  apply Forall_forall. intros y (z & <- & Hz%list_elem_of_In)%list_elem_of_In%in_map_iff.
  apply Hf; [done|..].
  - rewrite Forall_forall in HP. by apply HP.
  - rewrite Forall_forall in Hx. by apply Hx.
Qed.

Lemma zip_map_map {A B C} (f : A -> B) (g : A -> C) (l : list A) :
  zip (map f l) (map g l) = map (fun x => (f x, g x)) l.
Proof. induction l as [|x l IH]; simpl; [done|]. by rewrite IH. Qed.

Lemma map_reverse {A B} (f : A -> B) (l : list A) :
  map f (reverse l) = reverse (map f l).
Proof. change (map f ?l) with (f <$> l). apply fmap_reverse. Qed.

Lemma slice_from_tail {A} (l : list A) (k : Z) :
  1 <= k -> slice_from l (- k) = drop (length l - Z.to_nat k) l.
Proof.
  intros Hk. unfold slice_from, slice_index. f_equal.
  destruct (Z.ltb_spec (- k) 0); lia.
Qed.

Section TopK.

Variable exp : Q -> Q.

Lemma softmax_length logits : length (softmax exp logits) = length logits.
Proof. unfold softmax. by rewrite !length_map. Qed.

Lemma layer_topk_eq (self : OutputSeq) (hidden_state : list Q) (k : Z) :
  layer_topk exp self hidden_state k =
  reverse (map (fun t => (decode self (Z.of_nat t),
                          score (softmax exp (lm_head self hidden_state)) t))
               (slice_from (argsort (softmax exp (lm_head self hidden_state))) (- k))).
Proof.
  unfold layer_topk. cbv zeta. by rewrite <- !map_reverse, zip_map_map.
Qed.

Lemma layer_topk_probs (self : OutputSeq) (hidden_state : list Q) (k : Z) :
  map snd (layer_topk exp self hidden_state k) =
  reverse (map (score (softmax exp (lm_head self hidden_state)))
               (slice_from (argsort (softmax exp (lm_head self hidden_state))) (- k))).
Proof.
  rewrite layer_topk_eq, map_reverse. f_equal. by rewrite map_map.
Qed.

End TopK.

Lemma enumerate_snd {A} (l : list A) : map snd (enumerate l) = l.
Proof.
  unfold enumerate. change (map snd ?x) with (x.*2). apply snd_zip.
  by rewrite length_seq.
Qed.

Lemma enumerate_fst {A} (l : list A) : map fst (enumerate l) = seq 0 (length l).
Proof.
  unfold enumerate. change (map fst ?x) with (x.*1). apply fst_zip.
  by rewrite length_seq.
Qed.

Lemma layer_predictions_row (exp : Q -> Q) (self : OutputSeq) (position topk : Z)
    (layer : option Z) data i row :
  layer_predictions exp self position topk layer = Ok data ->
  data !! i = Some row ->
  exists hidden_state,
    map (fun p => (lp_token p, prob p)) row = layer_topk exp self hidden_state topk /\
    map ranking row = seq 1 (length row).
Proof.
  unfold layer_predictions. intros H Hi.
  destruct (position =? 0); [done|].
  apply bind_Ok in H as (hs & _ & H).
  destruct (for_each_Ok_lookup _ _ _ _ _ H Hi) as ([layer_no h] & _ & Hrow).
  apply bind_Ok in Hrow as (hidden_state & _ & [= <-]).
  exists hidden_state. rewrite !map_map, length_map. split.
  - rewrite <- (enumerate_snd (layer_topk exp self hidden_state topk)) at 2.
    apply map_ext. by intros [idx [token p]].
  - rewrite (map_ext _ (fun x => S (fst x))).
    + rewrite <- (map_map fst S), enumerate_fst, seq_shift.
      unfold enumerate. by rewrite length_zip, length_seq, Nat.min_id.
    + intros [idx [token p]]. simpl. lia.
Qed.

(** C2 (as amended).  For [k >= 1] the top-k of a layer is the reversed
    tail of length [k] of the ascending sort of the softmax of the
    projection, each token with its probability: [min(k, vocab_size)]
    pairs, descending by probability, and strictly descending when no
    two probabilities of the vocabulary are equal.  Each row of
    [layer_predictions] is such a top-k, ranked 1, 2, ... *)
Theorem layer_topk_descending (exp : Q -> Q) (self : OutputSeq) (hidden_state : list Q)
    (k : Z) :
  1 <= k ->
  let probs := softmax exp (lm_head self hidden_state) in
  let vocab_size := length (lm_head self hidden_state) in
  layer_topk exp self hidden_state k =
    reverse (map (fun t => (decode self (Z.of_nat t), score probs t))
                 (drop (vocab_size - Z.to_nat k) (argsort probs))) /\
  length (layer_topk exp self hidden_state k) = Nat.min (Z.to_nat k) vocab_size /\
  descending (map snd (layer_topk exp self hidden_state k)) /\
  ((forall i j, (i < j < vocab_size)%nat -> ~ (score probs i == score probs j)%Q) ->
   strictly_descending (map snd (layer_topk exp self hidden_state k))) /\
  (forall position layer data i row,
     layer_predictions exp self position k layer = Ok data -> data !! i = Some row ->
     exists h,
       map (fun p => (lp_token p, prob p)) row = layer_topk exp self h k /\
       map ranking row = seq 1 (length row)).
Proof.
  intros Hk probs vocab_size.
  assert (Hlen : length (argsort probs) = vocab_size).
  { unfold probs. by rewrite argsort_length, softmax_length. }
  assert (Hin : Forall (fun t => (t < vocab_size)%nat) (drop (vocab_size - Z.to_nat k) (argsort probs))).
  { apply Forall_forall. intros t Ht. apply subseteq_drop, elem_of_argsort in Ht.
    unfold probs in Ht. by rewrite softmax_length in Ht. }
  pose proof (StronglySorted_drop _ _ (vocab_size - Z.to_nat k) (argsort_sorted probs)) as Hs.
  split; [|split; [|split; [|split]]].
  - rewrite layer_topk_eq, slice_from_tail by done. fold probs. by rewrite Hlen.
  - rewrite layer_topk_eq, slice_from_tail by done. fold probs.
    rewrite length_reverse, length_map, length_drop, Hlen. lia.
  - rewrite layer_topk_probs, slice_from_tail by done. fold probs. rewrite Hlen.
    apply (StronglySorted_reverse (fun a b => (a <= b)%Q)).
    apply (StronglySorted_map_on (before probs) _ (fun _ => True)); [|by apply Forall_true|done].
    intros x y _ _. apply before_le.
  - intros Hdistinct. rewrite layer_topk_probs, slice_from_tail by done. fold probs. rewrite Hlen.
    apply (StronglySorted_reverse (fun a b => (a < b)%Q)).
    apply (StronglySorted_map_on (before probs) _ (fun t => (t < vocab_size)%nat)); [|done..].
    intros x y Hx Hy [Hlt|[Heq Hxy]]; [done|]. by destruct (Hdistinct x y).
  - intros position layer. apply layer_predictions_row.
Qed.

Lemma layer_topk_descending_witness :
  layer_topk pow2 self_demo [1; 0]%Q 1 = [("b", 8 # 10)] /\
  length (layer_topk pow2 self_demo [1; 0]%Q 3) = 2%nat /\
  strictly_descending (map snd (layer_topk pow2 self_demo [1; 0]%Q 3)).
Proof.
  destruct (layer_topk_descending pow2 self_demo [1; 0]%Q 1) as (H1 & _); [lia|].
  destruct (layer_topk_descending pow2 self_demo [1; 0]%Q 3) as (_ & H2 & _ & H3 & _); [lia|].
  split; [exact H1|]. split; [exact H2|]. apply H3.
  intros i j Hij Heq. simpl in Hij. destruct i as [|i], j as [|[|j]]; try lia. done.
Defined.

Example layer_predictions_demo :
  layer_predictions pow2 self_demo 2 2 None =
    Ok [[{| lp_token := "b"; prob := 4 # 5; ranking := 1; layer := 0 |};
         {| lp_token := "a"; prob := 1 # 5; ranking := 2; layer := 0 |}];
        [{| lp_token := "a"; prob := 16 # 20; ranking := 1; layer := 1 |};
         {| lp_token := "b"; prob := 16 # 80; ranking := 2; layer := 1 |}]] /\
  layer_predictions pow2 self_demo 0 2 None = Raise (ValueError PositionZero).
Proof. split; reflexivity. Qed.

(** The claim as first stated fails on tied scores, whatever the
    exponential: the two probabilities of a hidden state of zeros are
    equal, so the top 2 are not strictly descending; and for [k = 0] the
    slice [[-0:]] is the whole vocabulary, not [min(0, vocab_size)]
    tokens. *)
Lemma layer_topk_tie_counterexample :
  (forall exp : Q -> Q,
     ~ strictly_descending (map snd (layer_topk exp self_demo [0; 0]%Q 2))) /\
  (forall exp : Q -> Q,
     length (layer_topk exp self_demo [0; 0]%Q 0) = 2%nat /\ Z.to_nat (Z.min 0 2) = 0%nat).
Proof.
  split; intros exp.
  - rewrite layer_topk_probs. unfold argsort, softmax. simpl.
    destruct (Qle_bool _ _); simpl; intros H; inversion H as [|? ? _ Hhd]; subst;
      inversion Hhd as [|? ? Hlt _]; subst; by apply Qlt_irrefl in Hlt.
  - split; [|done]. rewrite layer_topk_eq, length_reverse, length_map.
    unfold slice_from, slice_index. rewrite length_drop, argsort_length, softmax_length. done.
Qed.

(** * Further properties *)

(** ** The cells of the merged matrix *)

Lemma chunk_lookup (start len j : nat) (cells : list Q) :
  (j < len)%nat -> chunk start len cells !! j = cells !! (start + j)%nat.
Proof. intros H. unfold chunk. by rewrite lookup_take_lt, lookup_drop. Qed.

Lemma chunk_length (start len : nat) (cells : list Q) :
  (start + len <= length cells)%nat -> length (chunk start len cells) = len.
Proof. intros H. unfold chunk. rewrite length_take, length_drop. lia. Qed.

Lemma flat_map_length_const {A B} (f : A -> list B) (l : list A) (c : nat) :
  (forall x, x ∈ l -> length (f x) = c) -> length (flat_map f l) = (length l * c)%nat.
Proof.
  induction l as [|x l IH]; intros H; simpl; [done|].
  rewrite length_app, (H x) by left. rewrite IH; [done|]. intros y Hy. apply H. by right.
Qed.

Lemma flat_map_lookup_const {A B} (f : A -> list B) (l : list A) (c i j : nat) (x : A) :
  (forall y, y ∈ l -> length (f y) = c) -> l !! i = Some x -> (j < c)%nat ->
  flat_map f l !! (i * c + j)%nat = f x !! j.
Proof.
  revert i. induction l as [|y l IH]; intros i H Hi Hj; [done|].
  simpl. destruct i as [|i]; simpl in Hi.
  - injection Hi as ->. rewrite lookup_app_l; [done|]. rewrite (H x) by left. lia.
  - rewrite lookup_app_r by (rewrite (H y) by left; lia).
    rewrite (H y) by left. replace (S i * c + j - c)%nat with (i * c + j)%nat by lia.
    apply IH; [|done..]. intros z Hz. apply H. by right.
Qed.

Section Cells.

Variable a : ndarray.
Variables B L N P : nat.
Hypothesis Hshape : shape a = [B; L; N; P].
Hypothesis Hsize : length (data a) = (B * L * N * P)%nat.

Lemma dims_of_shape : dim a 0 = B /\ dim a 1 = L /\ dim a 2 = N /\ dim a 3 = P.
Proof. unfold dim. by rewrite Hshape. Qed.

Lemma select_layer_cells ix r :
  select_layer a ix = Ok r ->
  length (data r) = (B * (N * P))%nat /\
  forall b j, (b < B)%nat -> (j < N * P)%nat ->
    data r !! (b * (N * P) + j)%nat = data a !! ((b * L + ix) * (N * P) + j)%nat.
Proof.
  destruct dims_of_shape as (HB & HL & HN & HP).
  unfold select_layer. rewrite HB, HL, HN, HP.
  destruct (Nat.leb_spec L ix) as [|Hix]; [done|]. intros [= <-]. cbn [data].
  assert (Hlen : forall b, b ∈ seq 0 B ->
            length (chunk ((b * L + ix) * (N * P)) (N * P) (data a)) = (N * P)%nat).
  { intros b Hb%list_elem_of_In%in_seq. apply chunk_length. rewrite Hsize.
    assert (H1 : (b * L + ix + 1 <= B * L)%nat) by nia.
    apply (Nat.mul_le_mono_r _ _ (N * P)) in H1. lia. }
  split.
  - rewrite (flat_map_length_const _ _ (N * P)) by done. by rewrite length_seq.
  - intros b j Hb Hj.
    rewrite (flat_map_lookup_const _ _ (N * P) b j b) by (done || (apply lookup_seq; lia)).
    by apply chunk_lookup.
Qed.

Lemma concatenate_cells (rows : list ndarray) c :
  Forall (fun r => shape r = [B; N; P] /\ length (data r) = (B * (N * P))%nat) rows ->
  concatenate_axis1 rows = Ok c ->
  shape c = [B; (length rows * N)%nat; P] /\
  length (data c) = (B * (length rows * (N * P)))%nat /\
  forall b i j r, (b < B)%nat -> rows !! i = Some r -> (j < N * P)%nat ->
    data c !! (b * (length rows * (N * P)) + (i * (N * P) + j))%nat =
    data r !! (b * (N * P) + j)%nat.
Proof.
  intros Hrows. unfold concatenate_axis1.
  destruct rows as [|r0 rows0] eqn:Heq; [done|]. rewrite <- Heq in *.
  assert (Hr0 : shape r0 = [B; N; P]).
  { rewrite Heq in Hrows. apply Forall_cons in Hrows as [[? _] _]. done. }
  rewrite Forall_forall in Hrows.
  destruct (forallb _ rows); [|done]. intros [= <-]. cbn [shape data].
  assert (HB0 : dim r0 0 = B) by (unfold dim; by rewrite Hr0).
  assert (HP0 : dim r0 2 = P) by (unfold dim; by rewrite Hr0).
  assert (HN : forall r, r ∈ rows -> dim r 1 = N).
  { intros r Hr. destruct (Hrows r Hr) as [Hs _]. unfold dim. by rewrite Hs. }
  rewrite HB0, HP0.
  assert (Hchunk : forall b r, (b < B)%nat -> r ∈ rows ->
            length (chunk (b * (dim r 1 * P)) (dim r 1 * P) (data r)) = (N * P)%nat).
  { intros b r Hb Hr. rewrite (HN r Hr). apply chunk_length.
    destruct (Hrows r Hr) as [_ ->]. nia. }
  assert (Hinner : forall b, b ∈ seq 0 B ->
            length (flat_map (fun r => chunk (b * (dim r 1 * P)) (dim r 1 * P) (data r)) rows)
            = (length rows * (N * P))%nat).
  { intros b Hb%list_elem_of_In%in_seq. apply flat_map_length_const.
    intros r Hr. apply Hchunk; [lia|done]. }
  split; [|split].
  - f_equal. f_equal. clear -HN. induction rows as [|r rows IH]; [done|]. simpl.
    rewrite (HN r) by left. rewrite IH; [done|]. intros r' Hr'. apply HN. by right.
  - rewrite (flat_map_length_const _ _ (length rows * (N * P))) by done.
    by rewrite length_seq.
  - intros b i j r Hb Hi Hj.
    assert (Hin : r ∈ rows) by (by eapply list_elem_of_lookup_2).
    pose proof (lookup_lt_Some _ _ _ Hi) as Hlt.
    rewrite (flat_map_lookup_const _ _ (length rows * (N * P)) b _ b);
      [|done|apply lookup_seq; lia|nia].
    rewrite (flat_map_lookup_const _ _ (N * P) i j r); [|intros; apply Hchunk; done|done..].
    rewrite chunk_lookup by (rewrite (HN r Hin); done). by rewrite (HN r Hin).
Qed.

Lemma swapaxes01_cells (c : ndarray) (M : nat) :
  shape c = [B; M; P] -> length (data c) = (B * (M * P))%nat ->
  length (data (swapaxes01 c)) = (M * (B * P))%nat /\
  forall m b p, (m < M)%nat -> (b < B)%nat -> (p < P)%nat ->
    data (swapaxes01 c) !! (m * (B * P) + (b * P + p))%nat =
    data c !! ((b * M + m) * P + p)%nat.
Proof.
  intros Hc Hlen. unfold swapaxes01. cbn [data].
  assert (HB0 : dim c 0 = B) by (unfold dim; by rewrite Hc).
  assert (HM0 : dim c 1 = M) by (unfold dim; by rewrite Hc).
  assert (HP0 : dim c 2 = P) by (unfold dim; by rewrite Hc).
  rewrite HB0, HM0, HP0.
  assert (Hchunk : forall m b, (m < M)%nat -> (b < B)%nat ->
            length (chunk ((b * M + m) * P) P (data c)) = P).
  { intros m b Hm Hb. apply chunk_length. rewrite Hlen.
    assert (H1 : (b * M + m + 1 <= B * M)%nat) by nia.
    apply (Nat.mul_le_mono_r _ _ P) in H1. lia. }
  assert (Hinner : forall m, m ∈ seq 0 M ->
            length (flat_map (fun b => chunk ((b * M + m) * P) P (data c)) (seq 0 B))
            = (B * P)%nat).
  { intros m Hm%list_elem_of_In%in_seq.
    rewrite (flat_map_length_const _ _ P); [by rewrite length_seq|].
    intros b Hb%list_elem_of_In%in_seq. apply Hchunk; lia. }
  split.
  - rewrite (flat_map_length_const _ _ (B * P)) by done. by rewrite length_seq.
  - intros m b p Hm Hb Hp.
    rewrite (flat_map_lookup_const _ _ (B * P) m _ m); [|done|apply lookup_seq; lia|nia].
    rewrite (flat_map_lookup_const _ _ P b p b);
      [|intros b' Hb'%list_elem_of_In%in_seq; apply Hchunk; lia|apply lookup_seq; lia|done].
    by apply chunk_lookup.
Qed.

(** The cells of the merged matrix: row [i * N + n] is neuron [n] of the
    [i]-th gathered layer, column [b * P + p] is position [p] of
    sequence [b]. *)
Lemma merge_rows_cells (ixs : list nat) (m : ndarray) :
  merge_rows a ixs = Ok m ->
  shape m = [(length ixs * N)%nat; (B * (P * 1))%nat] /\
  length (data m) = (length ixs * N * (B * P))%nat /\
  forall i ix n b p, ixs !! i = Some ix -> (n < N)%nat -> (b < B)%nat -> (p < P)%nat ->
    data m !! ((i * N + n) * (B * P) + (b * P + p))%nat = cell4 a b ix n p.
Proof.
  destruct dims_of_shape as (HB & HL & HN & HP).
  intros Hm. pose proof (merge_rows_shape _ _ _ Hm) as Hms.
  rewrite HB, HN, HP in Hms. split; [done|].
  unfold merge_rows in Hm.
  apply bind_Ok in Hm as (rows & Hrows & Hm).
  apply bind_Ok in Hm as (c & Hc & Hm).
  pose proof (for_each_Ok_length _ _ _ Hrows) as Hlen.
  assert (Hall : Forall (fun r => shape r = [B; N; P] /\ length (data r) = (B * (N * P))%nat) rows).
  { apply Forall_forall. intros r Hr. apply list_elem_of_lookup in Hr as [i Hi].
    destruct (for_each_Ok_lookup _ _ _ _ _ Hrows Hi) as (ix & _ & Hsel).
    split.
    - apply select_layer_shape in Hsel as [-> _]. by rewrite HB, HN, HP.
    - by apply select_layer_cells in Hsel as [? _]. }
  destruct (concatenate_cells rows c Hall Hc) as (Hcs & Hcl & Hcc).
  assert (Hcl' : length (data c) = (B * (length rows * N * P))%nat) by (rewrite Hcl; lia).
  destruct (swapaxes01_cells c (length rows * N) Hcs Hcl') as [Hsl Hsc].
  unfold reshape_rows in Hm. destruct (_ =? _)%nat; [done|]. injection Hm as <-. cbn [data].
  rewrite <- Hlen. split; [done|].
  intros i ix n b p Hi Hn Hb Hp.
  assert (Hi' : (i < length rows)%nat) by (rewrite Hlen; by eapply lookup_lt_Some).
  destruct (lookup_lt_is_Some_2 rows i Hi') as [r Hr].
  destruct (for_each_Ok_lookup _ _ _ _ _ Hrows Hr) as (ix' & Hix' & Hsel).
  assert (ix' = ix) as -> by congruence.
  rewrite Hsc by (done || nia).
  replace ((b * (length rows * N) + (i * N + n)) * P + p)%nat
    with (b * (length rows * (N * P)) + (i * (N * P) + (n * P + p)))%nat by lia.
  rewrite (Hcc b i (n * P + p)%nat r) by (done || nia).
  destruct (select_layer_cells ix r Hsel) as [_ Hrc].
  rewrite Hrc by (done || nia). unfold cell4. rewrite HL, HN, HP. f_equal. lia.
Qed.

End Cells.

Lemma existsb_recorded_inv nums layer_nums :
  existsb (fun num => negb (bool_decide (is_Some (layer_nums_to_row_ixs nums !! num)))) layer_nums = false ->
  forall x, x ∈ layer_nums -> x ∈ nums.
Proof.
  intros H x Hx. apply row_ixs_is_Some. destruct (decide (is_Some (layer_nums_to_row_ixs nums !! x))) as [|Hn]; [done|].
  rewrite (existsb_unrecorded nums layer_nums x) in H; [done|done|]. by rewrite <- row_ixs_is_Some.
Qed.

(** A call that returns went through the last steps with the layer
    numbers it settled on, all of them recorded. *)
Lemma reshape_Ok_gather a from_layer to_layer c m :
  reshape_activations a from_layer to_layer c = Ok m ->
  length (shape a) = 4%nat /\
  (forall x, x ∈ resolved_layers a from_layer to_layer c -> x ∈ recorded a c) /\
  gather a (recorded a c) (resolved_layers a from_layer to_layer c) = Ok m.
Proof.
  unfold resolved_layers.
  destruct (reshape_cases a from_layer to_layer) as [H|[(H & -> & ->)|[H Hs]]].
  - unfold reshape_activations. apply Nat.eqb_neq in H. by rewrite H.
  - rewrite reshape_unrestricted by done. cbn [bool_decide orb].
    replace (bool_decide (is_Some (@None Z))) with false by done. cbn [orb].
    destruct (existsb _ _) eqn:He; [done|]. intros Hm. split; [done|]. split; [|done].
    by apply existsb_recorded_inv.
  - rewrite reshape_ranged by done. cbv zeta.
    assert (bool_decide (is_Some from_layer) || bool_decide (is_Some to_layer) = true) as ->.
    { destruct Hs as [Hs|Hs]; rewrite (bool_decide_eq_true_2 _ Hs); [done|apply orb_true_r]. }
    destruct (_ =? _); [done|]. destruct (_ >? _); [done|].
    destruct (existsb _ _) eqn:He; [done|]. intros Hm. split; [done|]. split; [|done].
    by apply existsb_recorded_inv.
Qed.

Lemma reshape_Ok_cells (a : ndarray) (B L N P : nat) (from_layer to_layer : option Z)
    (c : option (list Z)) (m : ndarray) :
  shape a = [B; L; N; P] ->
  length (data a) = (B * L * N * P)%nat ->
  reshape_activations a from_layer to_layer c = Ok m ->
  shape m = [(length (resolved_layers a from_layer to_layer c) * N)%nat; (B * P)%nat] /\
  length (data m) = (length (resolved_layers a from_layer to_layer c) * N * (B * P))%nat /\
  (forall i layer_num n b p,
     resolved_layers a from_layer to_layer c !! i = Some layer_num ->
     (n < N)%nat -> (b < B)%nat -> (p < P)%nat ->
     exists ix, layer_nums_to_row_ixs (recorded a c) !! layer_num = Some ix /\
                cell2 m (i * N + n) (b * P + p) = cell4 a b ix n p).
Proof.
  intros Hshape Hsize Hm. set (layers := resolved_layers a from_layer to_layer c).
  apply reshape_Ok_gather in Hm as (_ & Hrec & Hg). fold layers in Hrec, Hg.
  unfold gather in Hg. apply bind_Ok in Hg as (ixs & Hixs & Hm).
  pose proof (for_each_Ok_length _ _ _ Hixs) as Hlen.
  destruct (merge_rows_cells a B L N P Hshape Hsize ixs m Hm) as (Hms & Hml & Hcells).
  rewrite Hlen in Hms, Hml.
  split; [rewrite Hms; f_equal; f_equal; lia|]. split; [done|].
  intros i layer_num n b p Hi Hn Hb Hp.
  destruct (lookup_lt_is_Some_2 ixs i) as [ix Hix].
  { rewrite Hlen. by eapply lookup_lt_Some. }
  destruct (for_each_Ok_lookup _ _ _ _ _ Hixs Hix) as (x & Hx & Hdict).
  assert (x = layer_num) as -> by congruence.
  destruct (layer_nums_to_row_ixs (recorded a c) !! layer_num) as [ix'|] eqn:Hd; [|done].
  injection Hdict as ->. exists ix. split; [done|].
  unfold cell2, dim. rewrite Hms. cbn [nth]. rewrite Nat.mul_1_r. by apply Hcells.
Qed.

(** X1.  On success the merged matrix has one row per (resolved layer, neuron)
    and one column per (batch, position), and its cell
    [(i * N + n, b * P + p)] is the activation [a[b, ix, n, p]] of the
    row [ix] the [i]-th resolved layer was recorded at; when every layer
    was recorded that row is the layer number itself. *)
Theorem reshape_cells (a : ndarray) (B L N P : nat) (from_layer to_layer : option Z)
    (c : option (list Z)) (m : ndarray) :
  shape a = [B; L; N; P] ->
  length (data a) = (B * L * N * P)%nat ->
  reshape_activations a from_layer to_layer c = Ok m ->
  let layers := resolved_layers a from_layer to_layer c in
  shape m = [(length layers * N)%nat; (B * P)%nat] /\
  length (data m) = (length layers * N * (B * P))%nat /\
  (forall i layer_num n b p,
     layers !! i = Some layer_num -> (n < N)%nat -> (b < B)%nat -> (p < P)%nat ->
     exists ix, layer_nums_to_row_ixs (recorded a c) !! layer_num = Some ix /\
                cell2 m (i * N + n) (b * P + p) = cell4 a b ix n p) /\
  (c = None ->
   forall i layer_num n b p,
     layers !! i = Some layer_num -> (n < N)%nat -> (b < B)%nat -> (p < P)%nat ->
     cell2 m (i * N + n) (b * P + p) = cell4 a b (Z.to_nat layer_num) n p).
Proof.
  intros Hshape Hsize Hm layers.
  destruct (reshape_Ok_cells a B L N P from_layer to_layer c m Hshape Hsize Hm)
    as (Hms & Hml & Hcell).
  split; [done|]. split; [done|]. split; [done|].
  intros -> i layer_num n b p Hi Hn Hb Hp.
  destruct (Hcell i layer_num n b p Hi Hn Hb Hp) as (ix & Hd & ->). f_equal.
  apply row_ixs_lookup in Hd. unfold recorded in Hd. cbn [default from_option id] in Hd.
  apply lookup_seqZ in Hd. lia.
Qed.

Lemma reshape_cells_witness :
  exists m, reshape_activations act1 None None None = Ok m /\
    shape m = [6; 4]%nat /\ cell2 m 3 2 = cell4 act1 1 1 1 0 /\
    cell4 act1 1 1 1 0 = Some (inject_Z 18).
Proof.
  destruct (reshape_activations act1 None None None) as [m|] eqn:Hm; [|by vm_compute in Hm].
  destruct (reshape_cells act1 2 3 2 2 None None None m eq_refl eq_refl Hm)
    as (Hs & _ & _ & Hc).
  exists m. split; [reflexivity|]. split; [exact Hs|].
  split; [|reflexivity].
  apply (Hc eq_refl 1%nat 1 1%nat 1%nat 0%nat); [reflexivity|lia..].
Defined.

Lemma merge_rows_Ok_inv a ixs m :
  merge_rows a ixs = Ok m ->
  ixs <> [] /\ Forall (fun ix => (ix < dim a 1)%nat) ixs /\ (1 <= dim a 2)%nat.
Proof.
  intros Hm. pose proof Hm as Hm'. unfold merge_rows in Hm.
  apply bind_Ok in Hm as (rows & Hrows & Hm).
  apply bind_Ok in Hm as (c & Hc & Hm).
  destruct (for_each_select_layer _ _ _ Hrows) as [Hshape Hixs].
  pose proof (for_each_Ok_length _ _ _ Hrows) as Hlen.
  assert (Hne : ixs <> []).
  { intros ->. destruct rows; [done|done]. }
  split; [done|]. split; [done|].
  assert (Hrne : rows <> []) by (intros ->; destruct ixs; done).
  destruct (concatenate_axis1_same _ _ _ rows Hrne Hshape) as [cells Hc'].
  rewrite Hc' in Hc. injection Hc as <-. rewrite reshape_rows_swapaxes01 in Hm.
  destruct (Nat.eqb_spec (length rows * dim a 2) 0) as [|Hn]; [done|]. lia.
Qed.

Lemma for_each_row_ixs_Ok (nums layer_nums : list Z) ixs :
  for_each (fun layer_num =>
      match layer_nums_to_row_ixs nums !! layer_num with
      | Some i => Ok i
      | None => Raise KeyError
      end) layer_nums = Ok ixs <->
  Forall2 (fun layer_num ix => layer_nums_to_row_ixs nums !! layer_num = Some ix) layer_nums ixs.
Proof.
  revert ixs. induction layer_nums as [|x l IH]; intros ixs.
  - simpl. split; [intros [= <-]; constructor|]. by intros ->%Forall2_nil_inv_l.
  - rewrite for_each_cons. split.
    + intros (ix & Hix & H)%bind_Ok. apply bind_Ok in H as (ixs' & Hixs' & [= <-]).
      destruct (_ !! x) eqn:Hx; [|done]. injection Hix as ->.
      constructor; [done|]. by apply IH.
    + intros (ix & ixs' & Hx & Hl & ->)%Forall2_cons_inv_l. rewrite Hx. cbn [mbind result_bind].
      apply IH in Hl. rewrite Hl. done.
Qed.

(** X2.  [reshape_activations] returns a matrix exactly when the activations
    have four axes, the resolved layer range is not empty, there is at
    least one neuron, and every resolved layer was recorded at a row the
    layer axis has. *)
Theorem reshape_succeeds_iff (a : ndarray) (from_layer to_layer : option Z)
    (c : option (list Z)) :
  let layers := resolved_layers a from_layer to_layer c in
  (exists m, reshape_activations a from_layer to_layer c = Ok m) <->
  length (shape a) = 4%nat /\ layers <> [] /\ (1 <= dim a 2)%nat /\
  forall x, x ∈ layers ->
    exists ix, layer_nums_to_row_ixs (recorded a c) !! x = Some ix /\ (ix < dim a 1)%nat.
Proof.
  intros layers. split.
  - intros [m Hm]. apply reshape_Ok_gather in Hm as (Hdim & _ & Hg). fold layers in Hg.
    apply bind_Ok in Hg as (ixs & Hixs & Hm).
    apply merge_rows_Ok_inv in Hm as (Hne & Hlt & HN).
    apply for_each_row_ixs_Ok in Hixs.
    split; [done|]. split; [|split; [done|]].
    + intros Hl. rewrite Hl in Hixs. apply Forall2_nil_inv_l in Hixs. done.
    + intros x Hx. apply list_elem_of_lookup in Hx as [i Hi].
      destruct (Forall2_lookup_l _ _ _ _ _ Hixs Hi) as (ix & Hix & Hd).
      exists ix. split; [done|]. rewrite Forall_forall in Hlt. apply Hlt.
      by eapply list_elem_of_lookup_2.
  - intros (Hdim & Hne & HN & Hall).
    assert (Hixs : exists ixs, Forall2 (fun layer_num ix =>
                layer_nums_to_row_ixs (recorded a c) !! layer_num = Some ix) layers ixs /\
              Forall (fun ix => (ix < dim a 1)%nat) ixs).
    { clear Hne. induction layers as [|x l IH]; [by exists []|].
      destruct (Hall x) as (ix & Hix & Hlt); [by left|].
      destruct IH as (ixs & H2 & Hf); [intros y Hy; apply Hall; by right|].
      exists (ix :: ixs). split; by constructor. }
    destruct Hixs as (ixs & H2 & Hlt).
    destruct (merge_rows_Ok a ixs) as [cells Hm]; [|done..|].
    { intros ->. apply Forall2_nil_inv_r in H2. done. }
    assert (Hg : gather a (recorded a c) layers = Ok
              {| shape := [(length ixs * dim a 2)%nat; (dim a 0 * (dim a 3 * 1))%nat];
                 data := cells |}).
    { unfold gather. apply for_each_row_ixs_Ok in H2. rewrite H2. done. }
    assert (Hrec : existsb (fun num => negb (bool_decide (is_Some
                     (layer_nums_to_row_ixs (recorded a c) !! num)))) layers = false).
    { apply existsb_recorded. intros x Hx. apply row_ixs_is_Some.
      destruct (Hall x Hx) as (ix & -> & _). done. }
    eexists. unfold layers, resolved_layers in *.
    destruct (reshape_cases a from_layer to_layer) as [H|[(H & -> & ->)|[H Hs]]]; [done|..].
    + rewrite reshape_unrestricted by done.
      replace (bool_decide (is_Some (@None Z))) with false in * by done. cbn [orb] in *.
      rewrite Hrec. exact Hg.
    + rewrite reshape_ranged by done. cbv zeta.
      assert (bool_decide (is_Some from_layer) || bool_decide (is_Some to_layer) = true) as Ht.
      { destruct Hs as [Hs|Hs]; rewrite (bool_decide_eq_true_2 _ Hs); [done|apply orb_true_r]. }
      rewrite Ht in *.
      set (f := default 0 from_layer) in *. set (t := default (Z.of_nat (dim a 0)) to_layer) in *.
      assert (f < t).
      { destruct (decide (f < t)); [done|]. exfalso. apply Hne. unfold range. apply seqZ_nil. lia. }
      destruct (Z.eqb_spec f t); [lia|]. destruct (Z.gtb_spec f t); [lia|].
      rewrite Hrec. exact Hg.
Qed.

(** X3.  The exceptions of [reshape_activations]: the lookups of line 671
    never miss a key (line 666 checked them), and a row is out of the
    layer axis only when more layer ids are recorded than the tensor has
    layers. *)
Theorem reshape_raises (a : ndarray) (from_layer to_layer : option Z)
    (c : option (list Z)) (e : exn) :
  reshape_activations a from_layer to_layer c = Raise e ->
  (e = IndexError \/ exists msg, e = ValueError msg) /\
  ((length (recorded a c) <= dim a 1)%nat -> exists msg, e = ValueError msg).
Proof.
  intros He.
  assert (Hg : forall layer_nums,
            (forall x, x ∈ layer_nums -> x ∈ recorded a c) ->
            gather a (recorded a c) layer_nums = Raise e ->
            (e = IndexError \/ exists msg, e = ValueError msg) /\
            ((length (recorded a c) <= dim a 1)%nat -> exists msg, e = ValueError msg)).
  { intros layer_nums Hrec Hg. unfold gather in Hg.
    destruct (for_each _ layer_nums) as [ixs|e'] eqn:Hixs; cbn [mbind result_bind] in Hg.
    - apply for_each_row_ixs_Ok in Hixs. unfold merge_rows in Hg.
      destruct (for_each (select_layer a) ixs) as [rows|e'] eqn:Hrows; cbn [mbind result_bind] in Hg.
      + assert (exists msg, e = ValueError msg) as Hv; [|split; [by right|done]].
        destruct (concatenate_axis1 rows) as [merged|e'] eqn:Hc; cbn [mbind result_bind] in Hg.
        * unfold reshape_rows in Hg. destruct (_ =? _)%nat; [|done]. injection Hg as <-. eauto.
        * injection Hg as <-. unfold concatenate_axis1 in Hc. destruct rows; [injection Hc as <-; eauto|].
          destruct (forallb _ _); [done|]. injection Hc as <-. eauto.
      + injection Hg as ->. apply for_each_Raise in Hrows as (ix & Hix & Hsel).
        unfold select_layer in Hsel. destruct (Nat.leb_spec (dim a 1) ix) as [Hle|]; [|done].
        injection Hsel as <-. split; [by left|]. intros Hlen. exfalso.
        apply list_elem_of_lookup in Hix as [i Hi].
        destruct (Forall2_lookup_r _ _ _ _ _ Hixs Hi) as (x & _ & Hd).
        apply row_ixs_lookup, lookup_lt_Some in Hd. lia.
    - injection Hg as ->. apply for_each_Raise in Hixs as (x & Hx & Hd). exfalso.
      apply Hrec, row_ixs_is_Some in Hx as [ix Hix]. by rewrite Hix in Hd. }
  destruct (reshape_cases a from_layer to_layer) as [H|[(H & -> & ->)|[H Hs]]].
  - unfold reshape_activations in He. apply Nat.eqb_neq in H. rewrite H in He.
    injection He as <-. split; [right|]; eauto.
  - rewrite reshape_unrestricted in He by done.
    destruct (existsb _ _) eqn:Hex; [injection He as <-; split; [right|]; eauto|].
    apply (Hg _ (existsb_recorded_inv _ _ Hex) He).
  - rewrite reshape_ranged in He by done. cbv zeta in He.
    destruct (_ =? _); [injection He as <-; split; [right|]; eauto|].
    destruct (_ >? _); [injection He as <-; split; [right|]; eauto|].
    destruct (existsb _ _) eqn:Hex; [injection He as <-; split; [right|]; eauto|].
    apply (Hg _ (existsb_recorded_inv _ _ Hex) He).
Qed.

Lemma reshape_raises_witness :
  reshape_activations act1 None None (Some [4; 0; 2; 7]) = Raise IndexError /\
  (IndexError = IndexError \/ exists msg, IndexError = ValueError msg).
Proof.
  split; [reflexivity|].
  exact (proj1 (reshape_raises act1 None None (Some [4; 0; 2; 7]) IndexError eq_refl)).
Defined.

Lemma enumerate_snoc {A} (l : list A) (x : A) :
  enumerate (l ++ [x]) = enumerate l ++ [(length l, x)].
Proof.
  unfold enumerate. rewrite length_app, seq_app. simpl.
  rewrite zip_with_app by (by rewrite length_seq). done.
Qed.

Lemma layer_nums_to_row_ixs_snoc (nums : list Z) (x : Z) :
  layer_nums_to_row_ixs (nums ++ [x]) = <[x := length nums]> (layer_nums_to_row_ixs nums).
Proof. unfold layer_nums_to_row_ixs. by rewrite enumerate_snoc, foldl_snoc. Qed.

(** X4.  The row of a layer number is where it stands last in the list of
    collected layer ids. *)
Theorem layer_nums_to_row_ixs_last (nums : list Z) (x : Z) (i : nat) :
  layer_nums_to_row_ixs nums !! x = Some i <->
  nums !! i = Some x /\ forall j, (i < j)%nat -> nums !! j <> Some x.
Proof.
  revert i. induction nums as [|y nums IH] using rev_ind; intros i.
  - unfold layer_nums_to_row_ixs. simpl. rewrite lookup_empty. split; [done|]. by intros [? _].
  - rewrite layer_nums_to_row_ixs_snoc. destruct (decide (y = x)) as [->|Hne].
    + rewrite lookup_insert_eq. split.
      * intros [= <-]. split; [by rewrite lookup_app_r, Nat.sub_diag|].
        intros j Hj. rewrite lookup_ge_None_2; [done|]. rewrite length_app. simpl. lia.
      * intros [Hi Hlast]. f_equal.
        pose proof (lookup_lt_Some _ _ _ Hi) as Hlt. rewrite length_app in Hlt. simpl in Hlt.
        destruct (decide (i = length nums)) as [|Hn]; [done|]. exfalso.
        apply (Hlast (length nums)); [lia|]. by rewrite lookup_app_r, Nat.sub_diag.
    + rewrite lookup_insert_ne by done. rewrite IH. split.
      * intros [Hi Hlast]. split; [by apply lookup_app_l_Some|].
        intros j Hj Hjx. apply lookup_app_Some in Hjx as [Hjx|[_ Hjx]]; [by apply (Hlast j)|].
        apply list_lookup_singleton_Some in Hjx as [_ ?]. done.
      * intros [Hi Hlast]. apply lookup_app_Some in Hi as [Hi|[_ Hi]].
        -- split; [done|]. intros j Hj Hjx. apply (Hlast j); [done|]. by apply lookup_app_l_Some.
        -- apply list_lookup_singleton_Some in Hi as [_ ?]. done.
Qed.

(** ** More on rankings *)

Lemma rank_of_Ok_inv (logits : list Q) (token_id r : Z) :
  rank_of logits token_id = Ok r ->
  exists t p : nat, token_id = Z.of_nat t /\ argsort logits !! p = Some t /\
                    r = Z.of_nat (length logits) - Z.of_nat p.
Proof.
  intros Hr. destruct (decide (0 <= token_id < Z.of_nat (length logits))) as [Hin|Hout].
  - assert (Ht : (Z.to_nat token_id < length logits)%nat) by lia.
    apply elem_of_argsort, list_elem_of_lookup in Ht as [p Hp].
    exists (Z.to_nat token_id), p. split; [lia|]. split; [done|].
    rewrite <- (Z2Nat.id token_id) in Hr by lia. rewrite (rank_of_at _ _ _ Hp) in Hr. congruence.
  - by rewrite rank_of_absent in Hr.
Qed.

Lemma rank_of_in_vocab (logits : list Q) (token_id : Z) :
  0 <= token_id < Z.of_nat (length logits) ->
  exists r, rank_of logits token_id = Ok r /\ 1 <= r <= Z.of_nat (length logits).
Proof.
  intros Hin. assert (Ht : (Z.to_nat token_id < length logits)%nat) by lia.
  apply elem_of_argsort, list_elem_of_lookup in Ht as [p Hp].
  pose proof (lookup_lt_Some _ _ _ Hp) as Hlt. rewrite argsort_length in Hlt.
  exists (Z.of_nat (length logits) - Z.of_nat p). split; [|lia].
  rewrite <- (Z2Nat.id token_id) by lia. by apply rank_of_at.
Qed.

(** X5.  A token has a rank exactly when its id is one of the vocabulary; for
    any other id [int] meets an empty tensor. *)
Theorem rank_of_defined_iff (logits : list Q) (token_id : Z) :
  ((exists r, rank_of logits token_id = Ok r /\ 1 <= r <= Z.of_nat (length logits)) <->
   0 <= token_id < Z.of_nat (length logits)) /\
  (~ (0 <= token_id < Z.of_nat (length logits)) <->
   rank_of logits token_id = Raise (ValueError NotOneElement)).
Proof.
  split; split.
  - intros (r & Hr & _). apply rank_of_Ok_inv in Hr as (t & p & -> & Hp & _).
    apply list_elem_of_lookup_2, elem_of_argsort in Hp. lia.
  - apply rank_of_in_vocab.
  - apply rank_of_absent.
  - intros Hr Hin. assert (Ht : (Z.to_nat token_id < length logits)%nat) by lia.
    apply elem_of_argsort, list_elem_of_lookup in Ht as [p Hp].
    rewrite <- (Z2Nat.id token_id) in Hr by lia. by rewrite (rank_of_at _ _ _ Hp) in Hr.
Qed.

(** X6.  The ranks of the tokens of the vocabulary are the numbers 1 to the
    vocabulary size, each the rank of one token. *)
Theorem rank_of_bijective (logits : list Q) :
  (forall t u r, rank_of logits t = Ok r -> rank_of logits u = Ok r -> t = u) /\
  (forall r, 1 <= r <= Z.of_nat (length logits) ->
     exists t : nat, (t < length logits)%nat /\ rank_of logits (Z.of_nat t) = Ok r).
Proof.
  split.
  - intros t u r Ht Hu.
    apply rank_of_Ok_inv in Ht as (t' & p & -> & Hp & Hr).
    apply rank_of_Ok_inv in Hu as (u' & q & -> & Hq & Hr').
    pose proof (lookup_lt_Some _ _ _ Hp) as Hlt. pose proof (lookup_lt_Some _ _ _ Hq) as Hlt'.
    rewrite argsort_length in Hlt, Hlt'.
    assert (p = q) as -> by lia. congruence.
  - intros r Hr.
    destruct (lookup_lt_is_Some_2 (argsort logits) (Z.to_nat (Z.of_nat (length logits) - r)))
      as [t Ht]; [rewrite argsort_length; lia|].
    exists t. split; [by eapply elem_of_argsort, list_elem_of_lookup_2|].
    rewrite (rank_of_at _ _ _ Ht). f_equal. lia.
Qed.

(** X7.  Whatever ascending order [torch.argsort] returns, a token with
    a strictly higher score gets a strictly smaller (better) rank, and a
    token with a better rank never has a lower score.  Nothing is said
    of the order of two equal scores, which is left to the sort. *)
Theorem rank_of_order (logits : list Q) (sorted : list nat) (t u : nat) (rt ru : Z) :
  ascending_order logits sorted ->
  rank_in sorted (Z.of_nat t) = Ok rt ->
  rank_in sorted (Z.of_nat u) = Ok ru ->
  ((score logits u < score logits t)%Q -> rt < ru) /\
  (rt < ru -> (score logits u <= score logits t)%Q).
Proof.
  intros Hasc Ht Hu.
  apply (rank_in_Ok_inv logits sorted Hasc) in Ht as (t' & p & Heq & Hp & ->).
  apply Nat2Z.inj in Heq as <-.
  apply (rank_in_Ok_inv logits sorted Hasc) in Hu as (u' & q & Heq & Hq & ->).
  apply Nat2Z.inj in Heq as <-.
  split.
  - intros Hlt. destruct (decide (q < p)%nat) as [|Hge]; [lia|]. exfalso.
    destruct (decide (p = q)) as [->|Hne].
    + assert (t = u) as -> by congruence. by apply Qlt_irrefl in Hlt.
    + pose proof (ascending_order_lookup logits sorted Hasc p q t u Hp Hq ltac:(lia)) as Hle.
      apply (Qlt_irrefl (score logits u)). by eapply Qlt_le_trans.
  - intros Hlt. apply (ascending_order_lookup logits sorted Hasc q p); [done..|lia].
Qed.

Lemma rank_of_order_witness :
  rank_in [3; 1; 2; 4; 0]%nat 2 = Ok 3 /\ rank_in [3; 1; 2; 4; 0]%nat 1 = Ok 4 /\
  ((score logits_demo 1 < score logits_demo 2)%Q -> 3 < 4) /\
  (3 < 4 -> (score logits_demo 1 <= score logits_demo 2)%Q).
Proof.
  split; [reflexivity|]. split; [reflexivity|].
  apply (rank_of_order logits_demo [3; 1; 2; 4; 0]%nat 2 1 3 4 ascending_order_demo);
    reflexivity.
Defined.

Lemma for_each_Ok_Forall {A B} (f : A -> result B) (Q : B -> Prop) l :
  (forall x, x ∈ l -> exists y, f x = Ok y /\ Q y) ->
  exists ys, for_each f l = Ok ys /\ length ys = length l /\ Forall Q ys.
Proof.
  induction l as [|x l IH]; intros H; [by exists []|].
  destruct (H x) as (y & Hy & HQ); [by left|].
  destruct IH as (ys & Hys & Hlen & HF); [intros x' Hx'; apply H; by right|].
  exists (y :: ys). rewrite for_each_cons, Hy. cbn [mbind result_bind].
  rewrite Hys. split; [done|]. split; [simpl; by rewrite Hlen|by constructor].
Qed.

Lemma getitem_nat_Ok {A} (l : list A) (i : nat) :
  (i < length l)%nat -> exists x, l !! i = Some x /\ getitem l (Z.of_nat i) = Ok x.
Proof.
  intros H. destruct (lookup_lt_is_Some_2 l i H) as [x Hx].
  exists x. split; [done|]. by apply getitem_Ok_nat.
Qed.

Lemma slice_from_cons_1 {A} (x : A) (l : list A) : slice_from (x :: l) 1 = l.
Proof.
  unfold slice_from, slice_index. cbn [length Z.ltb Z.compare].
  replace (Z.to_nat (Z.min 1 (Z.of_nat (S (length l))))) with 1%nat by lia. done.
Qed.

Lemma elem_of_enumerate {A} (l : list A) j x :
  (j, x) ∈ enumerate l <-> l !! j = Some x.
Proof.
  unfold enumerate. split.
  - intros [i Hi]%list_elem_of_lookup. apply lookup_zip_Some in Hi as [H1 H2].
    apply lookup_seq in H1 as [-> _]. done.
  - intros H. apply list_elem_of_lookup. exists j. apply lookup_zip_Some.
    split; [|done]. apply lookup_seq. split; [done|]. by eapply lookup_lt_Some.
Qed.

Lemma length_enumerate {A} (l : list A) : length (enumerate l) = length l.
Proof. unfold enumerate. rewrite length_zip, length_seq. lia. Qed.

(** X8.  On a record with an embedding layer, every layer as long as it,
    at least one input token, and an id of the vocabulary at every
    position from the last input token's successor to the one after the
    last hidden state: when [self.tokens] holds a sequence, [rankings]
    returns one row per layer after the embedding layer, one rank per
    generated position, each between 1 and the vocabulary size (no entry
    is left at 0); when [self.tokens] is empty, the ranks are computed
    and the method then fails on [self.tokens[0]]. *)
Theorem rankings_well_formed (self : OutputSeq) (embedding : list (list Q))
    (layers : list (list (list Q))) (ids : list Z) (rest : list (list Z))
    (n vocab_size : nat) :
  hidden_states self = embedding :: layers ->
  Forall (fun level => length level = length embedding) layers ->
  n_input_tokens self = Z.of_nat n ->
  (1 <= n <= length embedding)%nat ->
  token_ids self = ids :: rest ->
  (length embedding < length ids)%nat ->
  (forall k id, (n <= k)%nat -> ids !! k = Some id -> 0 <= id < Z.of_nat vocab_size) ->
  (forall h, length (lm_head self h) = vocab_size) ->
  (tokens self <> [] ->
   exists m, rankings self = Ok m /\
     length m = length layers /\
     Forall (fun row => length row = (length embedding - n + 1)%nat /\
                        Forall (fun r => 1 <= r <= Z.of_nat vocab_size) row) m) /\
  (tokens self = [] -> rankings self = Raise IndexError).
Proof.
  intros Hhs Hlevels Hn Hn1 Hids Hlen Hvocab Hhead.
  unfold rankings. rewrite Hhs, Hids, Hn.
  assert (getitem (embedding :: layers) 0 = Ok embedding) as -> by done.
  assert (getitem (ids :: rest) 0 = Ok ids) as Hg0 by done.
  cbn [mbind result_bind length]. rewrite slice_from_cons_1.
  destruct (Z.ltb_spec (Z.of_nat (S (length layers)) - 1) 0); [lia|].
  destruct (Z.ltb_spec (Z.of_nat (length embedding) - Z.of_nat n + 1) 0); [lia|]. cbn [orb].
  match goal with |- context [for_each ?f layers] =>
    destruct (for_each_Ok_Forall f
                (fun row => length row = (length embedding - n + 1)%nat /\
                            Forall (fun r => 1 <= r <= Z.of_nat vocab_size) row) layers)
      as (m & Hm & Hlm & HF)
  end.
  { intros level Hlevel.
    rewrite Forall_forall in Hlevels. specialize (Hlevels level Hlevel).
    assert (Hslice : length (slice_from level (Z.of_nat n - 1))
                     = (length embedding - n + 1)%nat).
    { unfold slice_from. rewrite length_drop. unfold slice_index.
      destruct (Z.ltb_spec (Z.of_nat n - 1) 0); lia. }
    match goal with |- context [for_each ?g (enumerate ?l)] =>
      destruct (for_each_Ok_Forall g (fun r => 1 <= r <= Z.of_nat vocab_size) (enumerate l))
        as (written & Hw & Hlw & HFw)
    end.
    { intros [j h] Hj. apply elem_of_enumerate in Hj.
      apply lookup_lt_Some in Hj. rewrite Hslice in Hj.
      rewrite Hg0. cbn [mbind result_bind].
      replace (Z.of_nat n + Z.of_nat j) with (Z.of_nat (n + j)) by lia.
      destruct (getitem_nat_Ok ids (n + j)) as (id & Hid & ->); [lia|]. cbn [mbind result_bind].
      destruct (Z.leb_spec (Z.of_nat (length embedding) - Z.of_nat n + 1) (Z.of_nat j)); [lia|].
      destruct (rank_of_in_vocab (lm_head self h) id) as (r & -> & Hr).
      { rewrite Hhead. apply (Hvocab (n + j)%nat); [lia|done]. }
      cbn [mbind result_bind].
      replace (Z.of_nat j + 1) with (Z.of_nat (j + 1)) by lia.
      destruct (getitem_nat_Ok ids (j + 1)) as (id' & _ & ->); [lia|]. cbn [mbind result_bind].
      exists r. split; [done|]. by rewrite Hhead in Hr. }
    rewrite Hw. cbn [mbind result_bind]. rewrite length_enumerate, Hslice in Hlw.
    eexists. split; [reflexivity|].
    replace (Z.to_nat (Z.of_nat (length embedding) - Z.of_nat n + 1) - length written)%nat
      with 0%nat by lia.
    cbn [replicate]. rewrite app_nil_r. done. }
  rewrite Hm. cbn [mbind result_bind]. split.
  - intros Hne. destruct (tokens self) as [|sequence_tokens others]; [done|].
    assert (getitem (sequence_tokens :: others) 0 = Ok sequence_tokens) as -> by done.
    cbn [mbind result_bind]. by exists m.
  - by intros ->.
Qed.

Lemma rankings_well_formed_witness :
  exists m, rankings self_demo = Ok m /\ length m = 2%nat /\
    Forall (fun row => length row = 2%nat /\ Forall (fun r => 1 <= r <= 2) row) m.
Proof.
  apply (rankings_well_formed self_demo _ _ [0; 1; 1; 0] [] 2 2 eq_refl).
  - repeat constructor.
  - reflexivity.
  - simpl. lia.
  - reflexivity.
  - simpl. lia.
  - intros k id Hk Hid. do 4 (destruct k as [|k]; [simpl in Hid; simplify_eq; lia|]). done.
  - intros h. unfold self_demo, lm_head, project. by rewrite length_map.
  - done.
Defined.

Lemma for_each_Forall2 {A B} (f : A -> result B) l ys :
  for_each f l = Ok ys <-> Forall2 (fun x y => f x = Ok y) l ys.
Proof.
  revert ys. induction l as [|x l IH]; intros ys.
  - simpl. split; [intros [= <-]; constructor|]. by intros ->%Forall2_nil_inv_l.
  - rewrite for_each_cons. split.
    + intros (y & Hy & H)%bind_Ok. apply bind_Ok in H as (ys' & Hys' & [= <-]).
      constructor; [done|]. by apply IH.
    + intros (y & ys' & Hx & Hl & ->)%Forall2_cons_inv_l. rewrite Hx. cbn [mbind result_bind].
      apply IH in Hl. by rewrite Hl.
Qed.

Lemma Forall2_NoDup {A B} (R : A -> B -> Prop) l k :
  (forall x x' y, R x y -> R x' y -> x = x') ->
  Forall2 R l k -> NoDup l -> NoDup k.
Proof.
  intros Hinj H. induction H as [|x y l k Hxy H IH]; intros Hnd; [constructor|].
  apply NoDup_cons in Hnd as [Hx Hnd]. constructor; [|by apply IH].
  intros Hy. apply list_elem_of_lookup in Hy as [i Hi].
  destruct (Forall2_lookup_r _ _ _ _ _ H Hi) as (x' & Hx' & Hr).
  apply Hx. rewrite (Hinj x x' y Hxy Hr). by eapply list_elem_of_lookup_2.
Qed.

Lemma getitem_Ok_iff {A} (l : list A) (i : Z) :
  (exists x, getitem l i = Ok x) <-> - Z.of_nat (length l) <= i < Z.of_nat (length l).
Proof.
  unfold getitem. cbv zeta.
  set (i' := if i <? 0 then i + Z.of_nat (length l) else i).
  assert (Hi' : 0 <= i' < Z.of_nat (length l) <->
                - Z.of_nat (length l) <= i < Z.of_nat (length l)).
  { unfold i'. destruct (Z.ltb_spec i 0); lia. }
  rewrite <- Hi'. clearbody i'.
  destruct (Z.ltb_spec i' 0); [cbn [orb]; split; [by intros [? ?]|lia]|].
  destruct (Z.leb_spec (Z.of_nat (length l)) i'); [cbn [orb]; split; [by intros [? ?]|lia]|].
  cbn [orb]. split; [lia|]. intros _.
  destruct (lookup_lt_is_Some_2 l (Z.to_nat i')) as [x ->]; [lia|]. eauto.
Qed.

Lemma getitem_Raise {A} (l : list A) (i : Z) e :
  getitem l i = Raise e -> e = IndexError.
Proof.
  unfold getitem. destruct (_ || _); [congruence|]. destruct (_ !! _); congruence.
Qed.

(** X9.  [rankings_watch] on a record with an embedding layer, for a
    position every layer has and watched tokens of the vocabulary: when
    [self.tokens] holds a sequence it returns one row per layer after
    the embedding layer, one rank per watched token, each between 1 and
    the vocabulary size, and different tokens never share a rank in a
    layer; when [self.tokens] is empty, the ranks are computed and the
    method then fails on [self.tokens[0]]. *)
Theorem rankings_watch_well_formed (self : OutputSeq) (watch : list Z) (position : Z)
    (embedding : list (list Q)) (layers : list (list (list Q))) (vocab_size : nat) :
  hidden_states self = embedding :: layers ->
  let index := if negb (position =? -1) then position - 1 else position in
  Forall (fun level => - Z.of_nat (length level) <= index < Z.of_nat (length level)) layers ->
  Forall (fun token_id => 0 <= token_id < Z.of_nat vocab_size) watch ->
  (forall h, length (lm_head self h) = vocab_size) ->
  (tokens self <> [] ->
   exists m, rankings_watch self watch position = Ok m /\
     length m = length layers /\
     Forall (fun row => length row = length watch /\
                        Forall (fun r => 1 <= r <= Z.of_nat vocab_size) row /\
                        (NoDup watch -> NoDup row)) m) /\
  (tokens self = [] -> rankings_watch self watch position = Raise IndexError).
Proof.
  intros Hhs index Hlevels Hwatch Hhead.
  unfold rankings_watch. rewrite Hhs. cbn [length]. fold index.
  destruct (Z.ltb_spec (Z.of_nat (S (length layers)) - 1) 0); [lia|].
  rewrite slice_from_cons_1.
  match goal with |- context [for_each ?f layers] =>
    destruct (for_each_Ok_Forall f
                (fun row => length row = length watch /\
                            Forall (fun r => 1 <= r <= Z.of_nat vocab_size) row /\
                            (NoDup watch -> NoDup row)) layers)
      as (m & Hm & Hlm & HF)
  end.
  { intros level Hlevel.
    rewrite Forall_forall in Hlevels. specialize (Hlevels level Hlevel).
    destruct (proj2 (getitem_Ok_iff level index) Hlevels) as [h Hh].
    destruct (for_each_Ok_Forall
                (fun token_id => hidden_state ← getitem level index;
                                 rank_of (lm_head self hidden_state) token_id)
                (fun r => 1 <= r <= Z.of_nat vocab_size) watch) as (row & Hrow & Hlen & Hin).
    { intros tid Htid. rewrite Hh. cbn [mbind result_bind].
      rewrite Forall_forall in Hwatch. specialize (Hwatch tid Htid).
      destruct (rank_of_in_vocab (lm_head self h) tid) as (r & Hr & Hr'); [by rewrite Hhead|].
      exists r. split; [done|]. by rewrite Hhead in Hr'. }
    exists row. split; [done|]. split; [done|]. split; [done|].
    apply for_each_Forall2 in Hrow. refine (Forall2_NoDup _ _ _ _ Hrow).
    intros t u r Ht Hu. rewrite Hh in Ht, Hu. cbn [mbind result_bind] in Ht, Hu.
    apply rank_of_Ok_inv in Ht as (t' & p & -> & Hp & Hr).
    apply rank_of_Ok_inv in Hu as (u' & q & -> & Hq & Hr').
    pose proof (lookup_lt_Some _ _ _ Hp) as Hlt. pose proof (lookup_lt_Some _ _ _ Hq) as Hlt'.
    rewrite argsort_length in Hlt, Hlt'.
    assert (p = q) as -> by lia. congruence. }
  rewrite Hm. cbn [mbind result_bind]. split.
  - intros Hne. destruct (tokens self) as [|sequence_tokens others]; [done|].
    assert (getitem (sequence_tokens :: others) 0 = Ok sequence_tokens) as -> by done.
    cbn [mbind result_bind]. by exists m.
  - by intros ->.
Qed.

Lemma rankings_watch_well_formed_witness :
  exists m, rankings_watch self_demo [0; 1] (-1) = Ok m /\ length m = 2%nat /\
    Forall (fun row => length row = 2%nat /\ Forall (fun r => 1 <= r <= 2) row /\
                       (NoDup [0; 1] -> NoDup row)) m.
Proof.
  apply (rankings_watch_well_formed self_demo [0; 1] (-1) _ _ 2 eq_refl).
  - repeat constructor; simpl; lia.
  - repeat constructor; lia.
  - intros h. unfold self_demo, lm_head, project. by rewrite length_map.
  - done.
Defined.

(** X10.  Without any hidden state, not even the embedding layer: [rankings]
    fails on [hidden_states[0]], [rankings_watch] on the rows of its
    matrix, and [layer_predictions] has no layer to report. *)
Theorem no_hidden_states (exp : Q -> Q) (self : OutputSeq) (watch : list Z)
    (position topk layer : Z) :
  hidden_states self = [] ->
  rankings self = Raise IndexError /\
  rankings_watch self watch position = Raise (ValueError NegativeDimensions) /\
  (position <> 0 -> layer_predictions exp self position topk None = Ok []) /\
  (position <> 0 -> layer_predictions exp self position topk (Some layer) = Raise IndexError) /\
  layer_predictions exp self 0 topk None = Raise (ValueError PositionZero).
Proof.
  intros Hhs. unfold rankings, rankings_watch, layer_predictions. rewrite Hhs.
  split; [done|]. split; [done|]. split; [|split; [|done]]; intros Hp.
  - destruct (Z.eqb_spec position 0); done.
  - destruct (Z.eqb_spec position 0); [done|]. unfold getitem. cbn [length].
    destruct (_ || _); [done|]. by rewrite lookup_nil.
Qed.

Lemma no_hidden_states_witness :
  rankings self_flat = Raise IndexError /\
  rankings_watch self_flat [0] 1 = Raise (ValueError NegativeDimensions) /\
  layer_predictions pow2 self_flat 1 3 None = Ok [].
Proof.
  destruct (no_hidden_states pow2 self_flat [0] 1 3 0 eq_refl) as (H1 & H2 & H3 & _).
  split; [exact H1|]. split; [exact H2|]. by apply H3.
Defined.

(** ** More on layer predictions *)

(** X11.  Whatever [k] is, the tokens of the top-k are different tokens of the
    vocabulary, each with its probability, and no token left out has a
    higher probability than one that is in. *)
Theorem layer_topk_selects_best (exp : Q -> Q) (self : OutputSeq) (hidden_state : list Q)
    (k : Z) :
  let probs := softmax exp (lm_head self hidden_state) in
  let vocab_size := length (lm_head self hidden_state) in
  exists top : list nat,
    layer_topk exp self hidden_state k =
      map (fun t => (decode self (Z.of_nat t), score probs t)) top /\
    NoDup top /\
    Forall (fun t => (t < vocab_size)%nat) top /\
    (forall t u, (t < vocab_size)%nat -> t ∉ top -> u ∈ top ->
       (score probs t <= score probs u)%Q) /\
    (forall u rest, top = u :: rest ->
       forall t, (t < vocab_size)%nat -> (score probs t <= score probs u)%Q).
Proof.
  intros probs vocab_size.
  set (sorted := argsort probs). set (n := slice_index sorted (- k)).
  assert (Hlen : length probs = vocab_size) by apply softmax_length.
  exists (reverse (drop n sorted)).
  assert (Hdom : forall t u, (t < vocab_size)%nat -> t ∉ reverse (drop n sorted) ->
            u ∈ reverse (drop n sorted) -> (score probs t <= score probs u)%Q).
  { intros t u Ht Hnot Hu. rewrite elem_of_reverse in Hnot, Hu.
    assert (Hin : t ∈ take n sorted).
    { rewrite <- Hlen in Ht. apply elem_of_argsort in Ht. fold sorted in Ht.
      rewrite <- (take_drop n sorted) in Ht. apply elem_of_app in Ht as [|]; done. }
    pose proof (argsort_sorted probs) as Hs. fold sorted in Hs.
    rewrite <- (take_drop n sorted) in Hs. apply StronglySorted_app in Hs as (Hs & _ & _).
    by apply before_le, Hs. }
  split; [|split; [|split; [|split]]].
  - rewrite layer_topk_eq. fold probs sorted. unfold slice_from. fold n. by rewrite map_reverse.
  - rewrite reverse_Permutation.
    apply (sublist_NoDup (drop n sorted) sorted); [apply argsort_NoDup|apply sublist_drop].
  - apply Forall_forall. intros t Ht. rewrite elem_of_reverse in Ht.
    apply subseteq_drop, elem_of_argsort in Ht. by rewrite Hlen in Ht.
  - done.
  - intros u rest Htop t Ht.
    destruct (decide (t ∈ reverse (drop n sorted))) as [Hin|Hnot].
    + rewrite Htop in Hin. apply elem_of_cons in Hin as [->|Hin]; [apply Qle_refl|].
      apply before_le.
      assert (Hs : StronglySorted (flip (before probs)) (reverse (drop n sorted))).
      { apply StronglySorted_reverse, StronglySorted_drop, argsort_sorted. }
      rewrite Htop in Hs. apply StronglySorted_cons in Hs as [Hs _].
      rewrite Forall_forall in Hs. by apply Hs.
    + apply Hdom; [done..|]. rewrite Htop. by left.
Qed.

(** X12.  For [k = 0] the slice [[-0:]] is the whole sorted vocabulary, and for
    a negative [k] it leaves out the [-k] lowest tokens. *)
Theorem layer_topk_nonpositive_k (exp : Q -> Q) (self : OutputSeq) (hidden_state : list Q)
    (k : Z) :
  k <= 0 ->
  length (layer_topk exp self hidden_state k) =
    (length (lm_head self hidden_state) - Z.to_nat (- k))%nat.
Proof.
  intros Hk. rewrite layer_topk_eq, length_reverse, length_map.
  unfold slice_from. rewrite length_drop, argsort_length, softmax_length.
  unfold slice_index. rewrite argsort_length, softmax_length.
  destruct (Z.ltb_spec (- k) 0); lia.
Qed.

Lemma layer_topk_nonpositive_k_witness :
  length (layer_topk pow2 self_demo [1; 0]%Q 0) = 2%nat /\
  length (layer_topk pow2 self_demo [1; 0]%Q (-1)) = 1%nat.
Proof.
  split.
  - apply (layer_topk_nonpositive_k pow2 self_demo [1; 0]%Q 0). lia.
  - apply (layer_topk_nonpositive_k pow2 self_demo [1; 0]%Q (-1)). lia.
Defined.

(** X13.  For a position other than 0 that every layer has, [layer_predictions]
    returns one row per layer after the embedding layer, row [i] made of
    the hidden state of layer [i + 1] and labelled [i]; asked for one
    layer [l], it returns the one row of [hidden_states[l + 1]], labelled
    [l]. *)
Theorem layer_predictions_rows (exp : Q -> Q) (self : OutputSeq) (position k : Z) :
  position <> 0 ->
  (Forall (fun level => - Z.of_nat (length level) <= position - 1 < Z.of_nat (length level))
          (slice_from (hidden_states self) 1) ->
   exists data, layer_predictions exp self position k None = Ok data /\
     length data = (length (hidden_states self) - 1)%nat /\
     forall i row, data !! i = Some row ->
       exists level h, hidden_states self !! S i = Some level /\
         getitem level (position - 1) = Ok h /\
         row = layer_row exp self h k (Z.of_nat i)) /\
  (forall l level h,
     getitem (hidden_states self) (l + 1) = Ok level ->
     getitem level (position - 1) = Ok h ->
     layer_predictions exp self position k (Some l) = Ok [layer_row exp self h k l]).
Proof.
  intros Hp. unfold layer_predictions. destruct (Z.eqb_spec position 0); [done|]. split.
  - intros Hlevels. cbn [mbind result_bind].
    destruct (for_each_Ok_exists
                (fun '(layer_no, h) =>
                   hidden_state ← getitem h (position - 1);
                   Ok (map (fun '(idx, (token, prob)) =>
                              {| lp_token := token; prob := prob; ranking := idx + 1;
                                 layer := default (Z.of_nat layer_no) None |})
                           (enumerate (layer_topk exp self hidden_state k))))
                (enumerate (slice_from (hidden_states self) 1))) as (data & Hdata & Hlen).
    { intros [i level] Hi. apply elem_of_enumerate in Hi.
      rewrite Forall_forall in Hlevels.
      destruct (proj2 (getitem_Ok_iff level (position - 1))) as [h Hh].
      { apply Hlevels. by eapply list_elem_of_lookup_2. }
      rewrite Hh. cbn [mbind result_bind]. eauto. }
    exists data. split; [done|]. split.
    + rewrite Hlen, length_enumerate. unfold slice_from. rewrite length_drop.
      unfold slice_index. cbn [Z.ltb Z.compare]. lia.
    + intros i row Hi.
      destruct (for_each_Ok_lookup _ _ _ _ _ Hdata Hi) as ([i' level] & Hl & Hrow).
      apply enumerate_lookup in Hl as [Hi' Hl]. simpl in Hi', Hl. subst i'.
      rewrite slice_from_1_lookup in Hl.
      apply bind_Ok in Hrow as (h & Hh & [= <-]). by exists level, h.
  - intros l level h Hlevel Hh. rewrite Hlevel. cbn [mbind result_bind for_each enumerate length seq zip zip_with].
    rewrite Hh. done.
Qed.

Lemma layer_predictions_rows_witness :
  exists data, layer_predictions pow2 self_demo 2 2 None = Ok data /\ length data = 2%nat.
Proof.
  destruct (layer_predictions_rows pow2 self_demo 2 2 ltac:(lia)) as [Hall _].
  destruct Hall as (data & Hdata & Hlen & _).
  - repeat constructor; simpl; lia.
  - exists data. split; [exact Hdata|exact Hlen].
Defined.

(** ** The token records *)

Lemma enumerate_lookup_Some {A} (l : list A) (idx : nat) (x : A) :
  l !! idx = Some x -> enumerate l !! idx = Some (idx, x).
Proof.
  intros H. unfold enumerate. apply lookup_zip_Some. split; [|done].
  apply lookup_seq. split; [done|]. by eapply lookup_lt_Some.
Qed.

(** The records of a loop over [enumerate(tokens)], one by one. *)
Lemma for_each_enumerate_lookup {A B} (f : nat * A -> result B) (toks : list A) ys :
  for_each f (enumerate toks) = Ok ys ->
  length ys = length toks /\
  forall idx tok, toks !! idx = Some tok -> exists y, ys !! idx = Some y /\ f (idx, tok) = Ok y.
Proof.
  intros H. split; [by rewrite (for_each_Ok_length _ _ _ H), length_enumerate|].
  intros idx tok Htok. apply for_each_Forall2 in H.
  apply enumerate_lookup_Some in Htok.
  destruct (Forall2_lookup_l _ _ _ _ _ H Htok) as (y & Hy & Hf). eauto.
Qed.

Lemma getitem_first {A} (l : list A) x : l !! 0%nat = Some x -> getitem l 0 = Ok x.
Proof. exact (getitem_Ok_nat l 0 x). Qed.

Lemma importance_at (scores : list Q) (idx : nat) (pad : Q) :
  (if (idx <? length scores)%nat then getitem scores (Z.of_nat idx) else Ok pad) =
  Ok (default pad (scores !! idx)).
Proof.
  destruct (Nat.ltb_spec idx (length scores)) as [Hlt|Hge].
  - destruct (getitem_nat_Ok scores idx Hlt) as (x & -> & ->). done.
  - by rewrite lookup_ge_None_2.
Qed.

(** X14.  [position] after its range check: an unknown method is a [KeyError];
    otherwise every entry of [self.tokens] gets the importance the
    generated token [position - n_input_tokens] gives it, and [-1] from
    where that vector ends. *)
Theorem position_values (self : OutputSeq) (p : Z) (attr_method : string) :
  n_input_tokens self <= p <= Z.of_nat (length (tokens self)) - 1 ->
  (attribution self !! attr_method = None ->
   position self p attr_method = Raise KeyError) /\
  (forall att scores,
     attribution self !! attr_method = Some att ->
     getitem att (p - n_input_tokens self) = Ok scores ->
     (forall idx, (idx < length (tokens self))%nat ->
        exists id, token_ids self !! idx = Some [id]) ->
     exists views, position self p attr_method = Ok views /\
       length views = length (tokens self) /\
       forall idx tok id, tokens self !! idx = Some tok -> token_ids self !! idx = Some [id] ->
         views !! idx = Some {| pv_token := tok; pv_token_id := id;
                                pv_type := type_of_index idx (n_input_tokens self);
                                pv_value := default (-1)%Q (scores !! idx) |}) /\
  (forall att,
     attribution self !! attr_method = Some att ->
     tokens self <> [] ->
     ~ (- Z.of_nat (length att) <= p - n_input_tokens self < Z.of_nat (length att)) ->
     position self p attr_method = Raise IndexError).
Proof.
  intros Hp. unfold position.
  destruct (Z.ltb_spec p (n_input_tokens self)); [lia|].
  destruct (Z.gtb_spec p (Z.of_nat (length (tokens self)) - 1)); [lia|]. cbn [orb].
  split; [by intros ->|]. split.
  - intros att scores -> Hscores Hids. rewrite Hscores.
    set (f := fun '(idx, token) => _).
    assert (Hf : forall idx tok id, tokens self !! idx = Some tok ->
              token_ids self !! idx = Some [id] ->
              f (idx, tok) = Ok {| pv_token := tok; pv_token_id := id;
                                   pv_type := type_of_index idx (n_input_tokens self);
                                   pv_value := default (-1)%Q (scores !! idx) |}).
    { intros idx tok id Htok Hid. unfold f. cbn [mbind result_bind].
      rewrite importance_at. cbn [mbind result_bind].
      rewrite (getitem_Ok_nat _ _ _ Hid). done. }
    destruct (for_each_Ok_exists f (enumerate (tokens self))) as (views & Hviews & Hlen).
    { intros [idx tok] Hin. apply elem_of_enumerate in Hin.
      destruct (Hids idx) as [id Hid]; [by eapply lookup_lt_Some|].
      rewrite (Hf idx tok id Hin Hid). eauto. }
    exists views. split; [done|].
    destruct (for_each_enumerate_lookup _ _ _ Hviews) as [Hl Hall]. split; [done|].
    intros idx tok id Htok Hid. destruct (Hall idx tok Htok) as (y & Hy & Hfy).
    rewrite (Hf idx tok id Htok Hid) in Hfy. congruence.
  - intros att -> Hne Hout.
    destruct (tokens self) as [|tok toks] eqn:Htoks; [done|].
    assert (Hg : getitem att (p - n_input_tokens self) = Raise IndexError).
    { destruct (getitem att _) as [x|e] eqn:Hg.
      - destruct Hout. apply getitem_Ok_iff. eauto.
      - by rewrite (getitem_Raise _ _ _ Hg). }
    unfold enumerate. cbn [length seq zip zip_with]. rewrite for_each_cons, Hg. done.
Qed.

Lemma position_values_witness :
  position self_flat 3 "missing" = Raise KeyError /\
  (exists views, position self_flat 3 "grad_x_input" = Ok views /\ length views = 4%nat).
Proof.
  destruct (position_values self_flat 3 "missing") as (Hkey & _); [simpl; lia|].
  destruct (position_values self_flat 3 "grad_x_input") as (_ & Hok & _); [simpl; lia|].
  split; [by apply Hkey|].
  destruct (Hok _ _ eq_refl eq_refl) as (views & Hviews & Hlen & _).
  - intros idx Hidx. do 4 (destruct idx as [|idx]; [simpl; eauto|]). simpl in Hidx. lia.
  - exists views. split; [exact Hviews|exact Hlen].
Defined.

(** X15.  [saliency] shows the importances of the first generated token,
    whatever was generated after it: token [idx] of the first sequence
    gets [attribution[0][idx]], and [0] from where that vector ends; the
    payload carries all the attributions.  An unknown method is a
    [KeyError], before the tokens are looked at. *)
Theorem saliency_values (self : OutputSeq) (attr_method : string) (style : saliency_style) :
  (attribution self !! attr_method = None ->
   saliency self attr_method style = Raise KeyError) /\
  (forall first rest toks ids,
     attribution self !! attr_method = Some (first :: rest) ->
     tokens self !! 0%nat = Some toks ->
     token_ids self !! 0%nat = Some ids ->
     (length toks <= length ids)%nat ->
     exists view, saliency self attr_method style = Ok view /\
       sv_attributions view = first :: rest /\
       length (sv_tokens view) = length toks /\
       forall idx tok id, toks !! idx = Some tok -> ids !! idx = Some id ->
         sv_tokens view !! idx =
           Some {| token := tok; token_id := id;
                   type := type_of_index idx (n_input_tokens self);
                   value := Some (default 0%Q (first !! idx)); position_ix := Some idx |}) /\
  (forall toks, attribution self !! attr_method = Some [] ->
     tokens self !! 0%nat = Some toks -> toks <> [] ->
     saliency self attr_method style = Raise IndexError).
Proof.
  unfold saliency. cbv zeta. rewrite Z.sub_diag. split; [by intros ->|]. split.
  - intros first rest toks ids -> Htoks Hids Hlen.
    rewrite (getitem_first _ _ Htoks). cbn [mbind result_bind].
    set (f := fun '(idx, token) => _).
    assert (Hf : forall idx tok id, toks !! idx = Some tok -> ids !! idx = Some id ->
              f (idx, tok) = Ok {| token := tok; token_id := id;
                   type := type_of_index idx (n_input_tokens self);
                   value := Some (default 0%Q (first !! idx)); position_ix := Some idx |}).
    { intros idx tok id Htok Hid. unfold f.
      assert (getitem (first :: rest) 0 = Ok first) as -> by done. cbn [mbind result_bind].
      rewrite importance_at. cbn [mbind result_bind].
      rewrite (getitem_first _ _ Hids). cbn [mbind result_bind].
      rewrite (getitem_Ok_nat _ _ _ Hid). done. }
    destruct (for_each_Ok_exists f (enumerate toks)) as (views & Hviews & Hl).
    { intros [idx tok] Hin. apply elem_of_enumerate in Hin.
      destruct (lookup_lt_is_Some_2 ids idx) as [id Hid].
      { apply lookup_lt_Some in Hin. lia. }
      rewrite (Hf idx tok id Hin Hid). eauto. }
    rewrite Hviews. cbn [mbind result_bind]. eexists. split; [done|].
    cbn [sv_tokens sv_attributions]. split; [done|].
    destruct (for_each_enumerate_lookup _ _ _ Hviews) as [Hl' Hall]. split; [done|].
    intros idx tok id Htok Hid. destruct (Hall idx tok Htok) as (y & Hy & Hfy).
    rewrite (Hf idx tok id Htok Hid) in Hfy. congruence.
  - intros toks -> Htoks Hne. rewrite (getitem_first _ _ Htoks). cbn [mbind result_bind].
    destruct toks as [|tok toks]; [done|]. done.
Qed.

Lemma saliency_values_witness :
  exists view, saliency self_text "grad_x_input" minimal = Ok view /\
    map value (sv_tokens view) =
      [Some (inject_Z 1); Some (inject_Z 2); Some (inject_Z 0); Some (inject_Z 0)] /\
    length (sv_attributions view) = 2%nat.
Proof.
  destruct (saliency_values self_text "grad_x_input" minimal) as (_ & Hok & _).
  destruct (Hok _ _ ["a"; "b"; "c"; "d"] [5; 6; 7; 8] eq_refl eq_refl eq_refl)
    as (view & Hview & Hatt & _); [simpl; lia|].
  exists view. split; [exact Hview|]. split; [|by rewrite Hatt].
  vm_compute in Hview. injection Hview as <-. reflexivity.
Defined.

(** X16.  [explorable] marks the first [n_input_tokens] tokens of the first
    sequence as input and the others as output, each with its id. *)
Theorem explorable_tokens (self : OutputSeq) (toks : list string) (ids : list Z) :
  tokens self !! 0%nat = Some toks ->
  token_ids self !! 0%nat = Some ids ->
  ((length toks <= length ids)%nat ->
   exists views, explorable self = Ok views /\
     length views = length toks /\
     (forall idx tok id, toks !! idx = Some tok -> ids !! idx = Some id ->
        views !! idx =
          Some {| token := tok; token_id := id;
                  type := type_of_index idx (n_input_tokens self);
                  value := None; position_ix := None |}) /\
     (forall idx view, views !! idx = Some view ->
        (type view = input <-> Z.of_nat idx < n_input_tokens self))) /\
  ((length ids < length toks)%nat -> explorable self = Raise IndexError).
Proof.
  intros Htoks Hids. unfold explorable.
  rewrite (getitem_first _ _ Htoks). cbn [mbind result_bind].
  set (f := fun '(idx, token) => _).
  assert (Hf : forall idx tok id, toks !! idx = Some tok -> ids !! idx = Some id ->
            f (idx, tok) = Ok {| token := tok; token_id := id;
                 type := type_of_index idx (n_input_tokens self);
                 value := None; position_ix := None |}).
  { intros idx tok id Htok Hid. unfold f.
    rewrite (getitem_first _ _ Hids). cbn [mbind result_bind].
    rewrite (getitem_Ok_nat _ _ _ Hid). done. }
  split.
  - intros Hlen.
    destruct (for_each_Ok_exists f (enumerate toks)) as (views & Hviews & Hl).
    { intros [idx tok] Hin. apply elem_of_enumerate in Hin.
      destruct (lookup_lt_is_Some_2 ids idx) as [id Hid].
      { apply lookup_lt_Some in Hin. lia. }
      rewrite (Hf idx tok id Hin Hid). eauto. }
    exists views. split; [done|].
    destruct (for_each_enumerate_lookup _ _ _ Hviews) as [Hl' Hall]. split; [done|].
    assert (Hrec : forall idx tok id, toks !! idx = Some tok -> ids !! idx = Some id ->
              views !! idx = Some {| token := tok; token_id := id;
                  type := type_of_index idx (n_input_tokens self);
                  value := None; position_ix := None |}).
    { intros idx tok id Htok Hid. destruct (Hall idx tok Htok) as (y & Hy & Hfy).
      rewrite (Hf idx tok id Htok Hid) in Hfy. congruence. }
    split; [done|]. intros idx view Hview.
    destruct (lookup_lt_is_Some_2 toks idx) as [tok Htok].
    { rewrite <- Hl'. by eapply lookup_lt_Some. }
    destruct (lookup_lt_is_Some_2 ids idx) as [id Hid].
    { apply lookup_lt_Some in Htok. lia. }
    rewrite (Hrec idx tok id Htok Hid) in Hview. injection Hview as <-. cbn [type].
    unfold type_of_index. destruct (Z.ltb_spec (Z.of_nat idx) (n_input_tokens self)); split; (done || lia).
  - intros Hlen.
    destruct (for_each f (enumerate toks)) as [views|e] eqn:Hviews.
    + exfalso. destruct (for_each_enumerate_lookup _ _ _ Hviews) as [_ Hall].
      destruct (lookup_lt_is_Some_2 toks (length ids)) as [tok Htok]; [done|].
      destruct (Hall _ _ Htok) as (y & _ & Hfy). unfold f in Hfy.
      rewrite (getitem_first _ _ Hids) in Hfy. cbn [mbind result_bind] in Hfy.
      destruct (getitem ids (Z.of_nat (length ids))) as [x|] eqn:Hg; [|done].
      assert (Hex : exists x, getitem ids (Z.of_nat (length ids)) = Ok x) by eauto.
      apply getitem_Ok_iff in Hex. lia.
    + f_equal. apply for_each_Raise in Hviews as ([idx tok] & _ & Hfe). unfold f in Hfe.
      rewrite (getitem_first _ _ Hids) in Hfe. cbn [mbind result_bind] in Hfe.
      destruct (getitem ids (Z.of_nat idx)) as [x|e'] eqn:Hg; [done|].
      cbn [mbind result_bind] in Hfe. injection Hfe as <-. by apply getitem_Raise in Hg.
Qed.

Lemma explorable_tokens_witness :
  exists views, explorable self_text = Ok views /\
    map type views = [input; input; output; output] /\
    map token_id views = [5; 6; 7; 8].
Proof.
  destruct (explorable_tokens self_text ["a"; "b"; "c"; "d"] [5; 6; 7; 8] eq_refl eq_refl)
    as [Hok _].
  destruct Hok as (views & Hviews & _); [simpl; lia|].
  exists views. split; [exact Hviews|].
  vm_compute in Hviews. injection Hviews as <-. split; reflexivity.
Defined.

(** ** The matrix handed to the factorization *)

Lemma transpose_cells (m : ndarray) (R C : nat) :
  shape m = [R; C] -> length (data m) = (R * C)%nat ->
  shape (transpose m) = [C; R] /\
  length (data (transpose m)) = (C * R)%nat /\
  forall r c, (r < R)%nat -> (c < C)%nat -> cell2 (transpose m) c r = cell2 m r c.
Proof.
  intros Hshape Hsize.
  assert (HR : dim m 0 = R) by (unfold dim; by rewrite Hshape).
  assert (HC : dim m 1 = C) by (unfold dim; by rewrite Hshape).
  unfold transpose. rewrite HR, HC. cbn [shape data].
  assert (Hcell : forall r c, (r < R)%nat -> (c < C)%nat ->
            length (chunk (r * C + c) 1 (data m)) = 1%nat).
  { intros r c Hr Hc. apply chunk_length. rewrite Hsize.
    assert (r * C + C <= R * C)%nat by nia. lia. }
  assert (Hinner : forall c, c ∈ seq 0 C ->
            length (flat_map (fun r => chunk (r * C + c) 1 (data m)) (seq 0 R)) = R).
  { intros c Hc%list_elem_of_In%in_seq.
    rewrite (flat_map_length_const _ _ 1), length_seq; [lia|].
    intros r Hr%list_elem_of_In%in_seq. apply Hcell; lia. }
  split; [done|]. split.
  { rewrite (flat_map_length_const _ _ R), length_seq; done. }
  intros r c Hr Hc. unfold cell2, dim at 1. cbn [shape data nth]. rewrite HC.
  rewrite (flat_map_lookup_const _ _ R c r c Hinner); [|by apply lookup_seq|done].
  replace r with (r * 1 + 0)%nat at 1 by lia.
  rewrite (flat_map_lookup_const _ _ 1%nat r 0%nat r); [|..|by apply lookup_seq|lia].
  - rewrite chunk_lookup by lia. f_equal. lia.
  - intros r' Hr'%list_elem_of_In%in_seq. apply Hcell; lia.
Qed.

Lemma elem_of_chunk (start len : nat) (cells : list Q) x :
  x ∈ chunk start len cells -> x ∈ cells.
Proof.
  unfold chunk. intros H%list_elem_of_lookup. destruct H as [i Hi].
  apply lookup_take_Some in Hi as [Hi _]. rewrite lookup_drop in Hi.
  by eapply list_elem_of_lookup_2.
Qed.

Lemma elem_of_transpose (m : ndarray) x : x ∈ data (transpose m) -> x ∈ data m.
Proof.
  unfold transpose. cbn [data].
  intros (c & _ & H)%list_elem_of_In%in_flat_map.
  apply in_flat_map in H as (r & _ & H). by eapply elem_of_chunk, list_elem_of_In.
Qed.

Lemma maximum0_nonnegative (m : ndarray) : Forall (fun x => (0 <= x)%Q) (data (maximum0 m)).
Proof.
  unfold maximum0. cbn [data]. apply Forall_forall. intros x Hx%list_elem_of_In%in_map_iff.
  destruct Hx as (y & <- & _). apply Q.le_max_l.
Qed.

Lemma maximum0_cells (m : ndarray) r c : cell2 (maximum0 m) r c = Qmax 0 <$> cell2 m r c.
Proof.
  unfold cell2, maximum0, dim. cbn [shape data].
  change (map (Qmax 0) (data m)) with (Qmax 0 <$> data m). by rewrite list_lookup_fmap.
Qed.

(** What a successful [__init__] did. *)
Lemma NMF_init_Ok_inv (fit_transform : sk_NMF -> ndarray -> nat + ndarray)
    (a : ndarray) (n_input_tokens : Z) (token_ids : list (list Z)) (requested : Z)
    (tokens : list (list string)) (c : option (list Z)) (from_layer to_layer : option Z)
    (nmf : NMF) :
  NMF_init fit_transform (Array a) n_input_tokens token_ids requested tokens c
    from_layer to_layer = Ok nmf ->
  exists m fitted,
    reshape_activations a from_layer to_layer c = Ok m /\
    0 <= Z.min requested (Z.of_nat (dim a 0 * dim a 3)) /\
    fit_transform (model nmf) (nmf_activations nmf) = inr fitted /\
    nmf = {| nmf_token_ids := token_ids; nmf_n_input_tokens := n_input_tokens;
             nmf_tokens := tokens; nmf_activations := transpose (maximum0 m);
             model := {| n_components := Z.min requested (Z.of_nat (dim a 0 * dim a 3));
                         init := "random"; random_state := 0; max_iter := 500 |};
             components := transpose fitted |}.
Proof.
  unfold NMF_init.
  destruct (reshape_activations a from_layer to_layer c) as [m|e] eqn:Hm; [|done].
  cbn [mbind result_bind]. cbv zeta.
  destruct (reshape_Ok_shape _ _ _ _ _ Hm) as [rows Hshape].
  assert (Hlast : dim m (length (shape m) - 1) = (dim a 0 * dim a 3)%nat).
  { unfold dim at 1. by rewrite Hshape. }
  rewrite Hlast.
  destruct (Z.ltb_spec (Z.min requested (Z.of_nat (dim a 0 * dim a 3))) 0) as [|Hk]; [done|].
  destruct (fit_transform _ _) as [code|fitted] eqn:Hfit; [done|].
  cbn [mbind result_bind]. intros [= <-]. exists m, fitted. done.
Qed.

(** X17.  Whatever the fit and the arguments, a factorization that was built
    holds no negative activation: every cell handed to the fit, and kept
    in [self.activations], is at least [0].  The fit was asked at least
    zero and at most as many components as were requested, the stored
    components are the transposed result of that very fit, and the
    tokens, their ids and the number of input tokens are the arguments. *)
Theorem NMF_init_nonnegative (fit_transform : sk_NMF -> ndarray -> nat + ndarray)
    (activations : activations_arg) (n_input_tokens : Z) (token_ids : list (list Z))
    (requested : Z) (tokens : list (list string)) (c : option (list Z))
    (from_layer to_layer : option Z) (nmf : NMF) :
  NMF_init fit_transform activations n_input_tokens token_ids requested tokens c
    from_layer to_layer = Ok nmf ->
  Forall (fun x => (0 <= x)%Q) (data (nmf_activations nmf)) /\
  0 <= n_components (model nmf) <= requested /\
  (exists fitted, fit_transform (model nmf) (nmf_activations nmf) = inr fitted /\
                  components nmf = transpose fitted) /\
  nmf_tokens nmf = tokens /\ nmf_token_ids nmf = token_ids /\
  nmf_n_input_tokens nmf = n_input_tokens.
Proof.
  destruct activations as [|a]; [done|]. intros Hinit.
  destruct (NMF_init_Ok_inv _ _ _ _ _ _ _ _ _ _ Hinit) as (m & fitted & Hm & Hk & Hfit & Hnmf).
  split; [|split; [|split]].
  - rewrite Hnmf. cbn [nmf_activations]. apply Forall_forall. intros x Hx%elem_of_transpose.
    pose proof (maximum0_nonnegative m) as Hall. rewrite Forall_forall in Hall. by apply Hall.
  - rewrite Hnmf. cbn [model n_components]. lia.
  - exists fitted. split; [done|]. by rewrite Hnmf.
  - by rewrite Hnmf.
Qed.

Lemma NMF_init_nonnegative_witness :
  exists nmf,
    NMF_init fit_zeros (Array {| shape := [1; 1; 2; 2]%nat;
                                 data := map inject_Z [1; -2; -3; 4] |})
      2 [[5; 6]] 1 [["a"; "b"]] None None None = Ok nmf /\
    Forall (fun x => (0 <= x)%Q) (data (nmf_activations nmf)) /\
    data (nmf_activations nmf) = map inject_Z [1; 0; 0; 4].
Proof.
  destruct (NMF_init fit_zeros (Array {| shape := [1; 1; 2; 2]%nat;
                                         data := map inject_Z [1; -2; -3; 4] |})
              2 [[5; 6]] 1 [["a"; "b"]] None None None) as [nmf|] eqn:Hinit;
    [|by vm_compute in Hinit].
  exists nmf. split; [reflexivity|].
  split; [exact (proj1 (NMF_init_nonnegative _ _ _ _ _ _ _ _ _ _ Hinit))|].
  vm_compute in Hinit. injection Hinit as <-. reflexivity.
Defined.

(** X18.  The matrix the fit works on, cell by cell: its row [b * P + p] is
    position [p] of sequence [b], its column [i * N + n] is neuron [n] of
    the [i]-th resolved layer, and the cell is that activation, or [0]
    where the activation is negative. *)
Theorem NMF_init_activation_cells (fit_transform : sk_NMF -> ndarray -> nat + ndarray)
    (a : ndarray) (B L N P : nat) (n_input_tokens : Z) (token_ids : list (list Z))
    (requested : Z) (tokens : list (list string)) (c : option (list Z))
    (from_layer to_layer : option Z) (nmf : NMF) :
  shape a = [B; L; N; P] ->
  length (data a) = (B * L * N * P)%nat ->
  NMF_init fit_transform (Array a) n_input_tokens token_ids requested tokens c
    from_layer to_layer = Ok nmf ->
  let layers := resolved_layers a from_layer to_layer c in
  shape (nmf_activations nmf) = [(B * P)%nat; (length layers * N)%nat] /\
  length (data (nmf_activations nmf)) = (B * P * (length layers * N))%nat /\
  n_components (model nmf) <= Z.of_nat (B * P) /\
  forall i layer_num n b p,
    layers !! i = Some layer_num -> (n < N)%nat -> (b < B)%nat -> (p < P)%nat ->
    exists ix, layer_nums_to_row_ixs (recorded a c) !! layer_num = Some ix /\
      cell2 (nmf_activations nmf) (b * P + p) (i * N + n) = Qmax 0 <$> cell4 a b ix n p.
Proof.
  intros Hshape Hsize Hinit layers.
  destruct (NMF_init_Ok_inv _ _ _ _ _ _ _ _ _ _ Hinit) as (m & fitted & Hm & Hk & _ & Hnmf).
  destruct (reshape_Ok_cells a B L N P from_layer to_layer c m Hshape Hsize Hm)
    as (Hms & Hml & Hcell). fold layers in Hms, Hml, Hcell.
  destruct (transpose_cells (maximum0 m) (length layers * N) (B * P)) as (Hts & Htl & Htc).
  { done. }
  { unfold maximum0. cbn [data]. rewrite length_map. lia. }
  destruct (dims_of_shape a B L N P Hshape) as (HB & _ & _ & HP).
  rewrite Hnmf. cbn [nmf_activations model n_components]. rewrite HB, HP.
  split; [done|]. split; [done|]. split; [lia|].
  intros i layer_num n b p Hi Hn Hb Hp.
  destruct (Hcell i layer_num n b p Hi Hn Hb Hp) as (ix & Hd & Hc). exists ix. split; [done|].
  rewrite Htc, maximum0_cells, Hc; [done|..].
  - apply lookup_lt_Some in Hi. nia.
  - nia.
Qed.

Lemma NMF_init_activation_cells_witness :
  exists nmf,
    NMF_init fit_zeros (Array act1) 2 [[5; 6]; [7; 8]] 2 [["a"; "b"]; ["c"; "d"]]
      None (Some 1) (Some 3) = Ok nmf /\
    shape (nmf_activations nmf) = [4; 4]%nat /\
    cell2 (nmf_activations nmf) 3 2 = Some (inject_Z 21).
Proof.
  destruct (NMF_init fit_zeros (Array act1) 2 [[5; 6]; [7; 8]] 2 [["a"; "b"]; ["c"; "d"]]
              None (Some 1) (Some 3)) as [nmf|] eqn:Hinit; [|by vm_compute in Hinit].
  destruct (NMF_init_activation_cells fit_zeros act1 2 3 2 2 _ _ _ _ _ _ _ nmf
              eq_refl eq_refl Hinit) as (Hs & _ & _ & Hc).
  exists nmf. split; [reflexivity|]. split; [exact Hs|].
  destruct (Hc 1%nat 2 0%nat 1%nat 1%nat) as (ix & Hix & Hcell); [reflexivity|lia..|].
  vm_compute in Hix. injection Hix as <-. exact Hcell.
Defined.

(** ** The token loops of the explorables *)

(** A loop that reads [ids[idx]] for every token: it ends well exactly
    when there is an id for every token, and otherwise with an
    [IndexError]. *)
Lemma token_loop {V} (mk : nat -> string -> Z -> V) (ids_of : result (list Z))
    (toks : list string) :
  let f := fun '(idx, token) => ids ← ids_of; id ← getitem ids (Z.of_nat idx);
                                Ok (mk idx token id) in
  (forall views, for_each f (enumerate toks) = Ok views ->
     length views = length toks /\
     (toks = [] \/ exists ids, ids_of = Ok ids /\ (length toks <= length ids)%nat /\
        forall idx tok id, toks !! idx = Some tok -> ids !! idx = Some id ->
          views !! idx = Some (mk idx tok id))) /\
  (forall e, for_each f (enumerate toks) = Raise e ->
     ids_of = Raise e \/ e = IndexError) /\
  (forall ids, ids_of = Ok ids -> (length toks <= length ids)%nat ->
     exists views, for_each f (enumerate toks) = Ok views).
Proof.
  intros f. split; [|split].
  - intros views Hviews. destruct (for_each_enumerate_lookup _ _ _ Hviews) as [Hlen Hall].
    split; [done|]. destruct toks as [|tok0 toks']; [by left|right].
    destruct (Hall 0%nat tok0 eq_refl) as (y0 & _ & Hf0). unfold f in Hf0.
    destruct ids_of as [ids|] eqn:Hids; [|done]. exists ids. split; [done|].
    cbn [mbind result_bind] in *. split.
    + destruct (Nat.le_gt_cases (length (tok0 :: toks')) (length ids)) as [|Hlt]; [done|].
      exfalso. destruct (lookup_lt_is_Some_2 (tok0 :: toks') (length ids)) as [tok Htok]; [done|].
      destruct (Hall _ _ Htok) as (y & _ & Hfy). unfold f in Hfy.
      cbn [mbind result_bind] in Hfy.
      destruct (getitem ids (Z.of_nat (length ids))) as [x|] eqn:Hg; [|done].
      assert (Hex : exists x, getitem ids (Z.of_nat (length ids)) = Ok x) by eauto.
      apply getitem_Ok_iff in Hex. lia.
    + intros idx tok id Htok Hid. destruct (Hall idx tok Htok) as (y & Hy & Hfy).
      unfold f in Hfy. cbn [mbind result_bind] in Hfy.
      rewrite (getitem_Ok_nat _ _ _ Hid) in Hfy. cbn [mbind result_bind] in Hfy. congruence.
  - intros e ([idx tok] & _ & Hfe)%for_each_Raise. unfold f in Hfe.
    destruct ids_of as [ids|e']; cbn [mbind result_bind] in Hfe; [|left; congruence].
    right. destruct (getitem ids (Z.of_nat idx)) as [x|e''] eqn:Hg; [done|].
    cbn [mbind result_bind] in Hfe. injection Hfe as <-. by apply getitem_Raise in Hg.
  - intros ids -> Hlen. destruct (for_each_Ok_exists f (enumerate toks)) as (views & Hviews & _).
    { intros [idx tok] Hin. apply elem_of_enumerate in Hin.
      destruct (lookup_lt_is_Some_2 ids idx) as [id Hid].
      { apply lookup_lt_Some in Hin. lia. }
      unfold f. cbn [mbind result_bind]. rewrite (getitem_Ok_nat _ _ _ Hid). eauto. }
    eauto.
Qed.

(** The cases of [explore], on the token and id lists of the record. *)
Lemma explore_cases (self : NMF) (input_sequence : Z) :
  ((exists view, explore self input_sequence = Ok view) <->
   exists toks ids,
     getitem (nmf_tokens self) input_sequence = Ok toks /\
     getitem (nmf_token_ids self) input_sequence = Ok ids /\
     (length toks <= length ids)%nat) /\
  (forall e, explore self input_sequence = Raise e -> e = IndexError) /\
  (forall view toks, explore self input_sequence = Ok view ->
     getitem (nmf_tokens self) input_sequence = Ok toks ->
     length (fv_tokens view) = length toks /\
     forall idx v, fv_tokens view !! idx = Some v ->
       toks !! idx = Some (token v) /\ position_ix v = Some idx /\ value v = None /\
       (type v = input <-> Z.of_nat idx < nmf_n_input_tokens self)).
Proof.
  unfold explore.
  set (mk := fun (idx : nat) (token : string) (id : Z) =>
               {| token := token; token_id := id;
                  type := type_of_index idx (nmf_n_input_tokens self);
                  value := None; position_ix := Some idx |}).
  destruct (getitem (nmf_tokens self) input_sequence) as [toks|e0] eqn:Htoks.
  2:{ apply getitem_Raise in Htoks as ->. cbn [mbind result_bind].
      split; [split; [by intros [? ?]|by intros (? & ? & ? & _)]|].
      split; [by intros e [= <-]|done]. }
  cbn [mbind result_bind].
  destruct (token_loop mk (getitem (nmf_token_ids self) input_sequence) toks)
    as (Hok & Hraise & Hex).
  cbv zeta in Hok, Hraise, Hex. unfold mk in Hok, Hraise, Hex.
  destruct (for_each _ (enumerate toks)) as [views|e1] eqn:Hviews; cbn [mbind result_bind].
  - destruct (Hok views eq_refl) as [Hlen Hrec].
    destruct (getitem (nmf_token_ids self) input_sequence) as [ids|e2] eqn:Hids;
      cbn [mbind result_bind].
    + split; [split; [|by eauto]|].
      { intros _. exists toks, ids. split; [done|]. split; [done|].
        destruct Hrec as [->|(ids' & [= <-] & Hle & _)]; [simpl; lia|done]. }
      split; [done|]. intros view toks' [= <-] [= <-]. cbn [fv_tokens]. split; [done|].
      intros idx v Hv.
      destruct Hrec as [->|(ids' & [= <-] & Hle & Hrec)]; [by destruct views|].
      destruct (lookup_lt_is_Some_2 toks idx) as [tok Htok].
      { rewrite <- Hlen. by eapply lookup_lt_Some. }
      destruct (lookup_lt_is_Some_2 ids idx) as [id Hid].
      { apply lookup_lt_Some in Htok. lia. }
      rewrite (Hrec idx tok id Htok Hid) in Hv. injection Hv as <-.
      cbn [token position_ix value type]. split; [done|]. split; [done|]. split; [done|].
      unfold type_of_index.
      destruct (Z.ltb_spec (Z.of_nat idx) (nmf_n_input_tokens self)); split; (done || lia).
    + apply getitem_Raise in Hids as ->.
      split; [split; [by intros [? ?]|by intros (? & ? & _ & ? & _)]|].
      split; [by intros e [= <-]|done].
  - split; [split; [by intros [? ?]|]|].
    { intros (toks' & ids & [= <-] & Hids & Hle).
      destruct (Hex ids Hids Hle) as [views Hv]. done. }
    split; [|done]. intros e [= <-].
    destruct (Hraise e1 eq_refl) as [Hids|Heq]; [|done]. by apply getitem_Raise in Hids.
Qed.

(** X19.  On an instance that holds its token and id lists, [explore]
    shows a sequence exactly when the batch has that sequence, in the
    tokens and in the token ids, with at least as many ids as tokens;
    what it shows has one record per token, in order, with its position,
    no value, and type input exactly below [n_input_tokens].  An
    [input_sequence] outside the token list or outside the token ids,
    and a sequence with fewer ids than tokens, each end in an
    [IndexError]. *)
Theorem explore_succeeds_iff (self : NMF) (input_sequence : Z) :
  ((exists view, explore self input_sequence = Ok view) <->
   exists toks ids,
     getitem (nmf_tokens self) input_sequence = Ok toks /\
     getitem (nmf_token_ids self) input_sequence = Ok ids /\
     (length toks <= length ids)%nat) /\
  (forall view toks, explore self input_sequence = Ok view ->
     getitem (nmf_tokens self) input_sequence = Ok toks ->
     length (fv_tokens view) = length toks /\
     forall idx v, fv_tokens view !! idx = Some v ->
       toks !! idx = Some (token v) /\ position_ix v = Some idx /\ value v = None /\
       (type v = input <-> Z.of_nat idx < nmf_n_input_tokens self)) /\
  (~ (- Z.of_nat (length (nmf_tokens self)) <= input_sequence
      < Z.of_nat (length (nmf_tokens self))) ->
   explore self input_sequence = Raise IndexError) /\
  (~ (- Z.of_nat (length (nmf_token_ids self)) <= input_sequence
      < Z.of_nat (length (nmf_token_ids self))) ->
   - Z.of_nat (length (nmf_tokens self)) <= input_sequence
     < Z.of_nat (length (nmf_tokens self)) ->
   explore self input_sequence = Raise IndexError) /\
  (forall toks ids,
     getitem (nmf_tokens self) input_sequence = Ok toks ->
     getitem (nmf_token_ids self) input_sequence = Ok ids ->
     (length ids < length toks)%nat ->
     explore self input_sequence = Raise IndexError).
Proof.
  destruct (explore_cases self input_sequence) as (Hiff & Hraise & Hview).
  assert (Hfail : ~ (exists toks ids,
                       getitem (nmf_tokens self) input_sequence = Ok toks /\
                       getitem (nmf_token_ids self) input_sequence = Ok ids /\
                       (length toks <= length ids)%nat) ->
                  explore self input_sequence = Raise IndexError).
  { intros Hno. destruct (explore self input_sequence) as [view|e] eqn:He.
    - exfalso. apply Hno, Hiff. eauto.
    - f_equal. by apply Hraise. }
  split; [done|]. split; [done|]. split; [|split].
  - intros Hout. apply Hfail. intros (toks & ids & Htoks & _).
    apply Hout, getitem_Ok_iff. eauto.
  - intros Hout _. apply Hfail. intros (toks & ids & _ & Hids & _).
    apply Hout, getitem_Ok_iff. eauto.
  - intros toks ids Htoks Hids Hlt. apply Hfail.
    intros (toks' & ids' & Htoks' & Hids' & Hle).
    rewrite Htoks in Htoks'. rewrite Hids in Hids'. simplify_eq. lia.
Qed.

Lemma NMF_init_Ok_fields (fit_transform : sk_NMF -> ndarray -> nat + ndarray)
    (activations : activations_arg) (n_input_tokens : Z) (token_ids : list (list Z))
    (requested : Z) (tokens : list (list string)) (c : option (list Z))
    (from_layer to_layer : option Z) (nmf : NMF) :
  NMF_init fit_transform activations n_input_tokens token_ids requested tokens c
    from_layer to_layer = Ok nmf ->
  nmf_tokens nmf = tokens /\ nmf_token_ids nmf = token_ids /\
  nmf_n_input_tokens nmf = n_input_tokens.
Proof.
  destruct activations as [|a]; [done|]. intros Hinit.
  destruct (NMF_init_Ok_inv _ _ _ _ _ _ _ _ _ _ Hinit) as (m & fitted & _ & _ & _ & ->).
  done.
Qed.

(** X20.  The factorization of an output shows the tokens the output itself
    shows: after [run_nmf], [explore] of the first sequence lists the
    records of [explorable], token, id and input/output type unchanged,
    each with its position added. *)
Theorem run_nmf_explore_tokens (fit_transform : sk_NMF -> ndarray -> nat + ndarray)
    (self : OutputSeq) (n_components : Z) (from_layer to_layer : option Z)
    (nmf : NMF) (views : list token_view) :
  run_nmf fit_transform self n_components from_layer to_layer = Ok nmf ->
  explorable self = Ok views ->
  token_ids self <> [] ->
  exists view, explore nmf 0 = Ok view /\
    fv_tokens view =
      imap (fun idx v => {| token := token v; token_id := token_id v; type := type v;
                            value := None; position_ix := Some idx |}) views.
Proof.
  intros Hrun Hexp Hne. unfold run_nmf in Hrun.
  destruct (NMF_init_Ok_fields _ _ _ _ _ _ _ _ _ _ Hrun) as (Ht & Hi & Hn).
  destruct (proj2 (getitem_Ok_iff (token_ids self) 0)) as [ids Hids].
  { destruct (token_ids self); [done|]. simpl. lia. }
  unfold explorable in Hexp. unfold explore. rewrite Ht, Hi, Hn.
  destruct (getitem (tokens self) 0) as [toks|] eqn:Htoks; [|done].
  cbn [mbind result_bind] in *. rewrite Hids in *.
  set (mk1 := fun (idx : nat) (token : string) (id : Z) =>
               {| token := token; token_id := id;
                  type := type_of_index idx (n_input_tokens self);
                  value := None; position_ix := None |}).
  set (mk2 := fun (idx : nat) (token : string) (id : Z) =>
               {| token := token; token_id := id;
                  type := type_of_index idx (n_input_tokens self);
                  value := None; position_ix := Some idx |}).
  destruct (token_loop mk1 (Ok ids) toks) as (Hok1 & _ & _).
  destruct (token_loop mk2 (Ok ids) toks) as (Hok2 & _ & Hex2).
  cbv zeta in Hok1, Hok2, Hex2. unfold mk1 in Hok1. unfold mk2 in Hok2, Hex2.
  destruct (Hok1 views Hexp) as [Hlen1 Hrec1].
  assert (Hle : (length toks <= length ids)%nat).
  { destruct Hrec1 as [->|(ids' & [= <-] & Hle & _)]; [simpl; lia|done]. }
  destruct (Hex2 ids eq_refl Hle) as [views2 Hviews2].
  rewrite Hviews2. cbn [mbind result_bind]. eexists. split; [reflexivity|].
  cbn [fv_tokens]. destruct (Hok2 views2 Hviews2) as [Hlen2 Hrec2].
  apply list_eq. intros idx. rewrite list_lookup_imap.
  destruct (toks !! idx) as [tok|] eqn:Htok.
  - destruct Hrec1 as [->|(ids1 & [= <-] & _ & Hrec1)]; [done|].
    destruct Hrec2 as [->|(ids2 & [= <-] & _ & Hrec2)]; [done|].
    destruct (lookup_lt_is_Some_2 ids idx) as [id Hid].
    { apply lookup_lt_Some in Htok. lia. }
    by rewrite (Hrec1 idx tok id Htok Hid), (Hrec2 idx tok id Htok Hid).
  - apply lookup_ge_None in Htok.
    rewrite (lookup_ge_None_2 views2), (lookup_ge_None_2 views) by lia. done.
Qed.

Lemma run_nmf_explore_tokens_witness :
  exists view, 
    (nmf ← run_nmf fit_zeros self_text 2 None None; explore nmf 0) = Ok view /\
    map token (fv_tokens view) = ["a"; "b"; "c"; "d"] /\
    map position_ix (fv_tokens view) = [Some 0; Some 1; Some 2; Some 3]%nat.
Proof.
  destruct (run_nmf fit_zeros self_text 2 None None) as [nmf|] eqn:Hrun;
    [|by vm_compute in Hrun].
  destruct (explorable self_text) as [views|] eqn:Hexp; [|by vm_compute in Hexp].
  destruct (run_nmf_explore_tokens fit_zeros self_text 2 None None nmf views Hrun Hexp)
    as (view & Hview & Htokens); [done|].
  exists view. split; [exact Hview|]. rewrite Htokens.
  vm_compute in Hexp. injection Hexp as <-. split; reflexivity.
Defined.
